(** * AudioConnector: the per-connection session protocol engine

    A shallow embedding of [class Session] (websocket/session.ts) and of the
    parts of its collaborators that the session touches, followed by the
    properties of sequencing, capture arbitration, audio chunking, turn
    emission and shutdown.

    Conventions of the embedding
    - a JavaScript [number] used as a counter or a length is a [Z];
    - a [Uint8Array] is a [list byte];
    - the [ws] socket is a recording transport: every [ws.send] appends a
      frame to [sent], every [ws.close] bumps [closeCalls];
    - a promise continuation registered with [.then] is a [Continuation]
      waiting in [pending]; it runs when the event loop delivers the reply;
    - an engine callback registered with [.on] runs when the event loop
      delivers the engine's event. *)

From Stdlib Require Import ZArith QArith.QArith_base Lia.
From stdpp Require Import base option list strings gmap sorting.
From Equations Require Import Equations.

Local Open Scope Z_scope.
Local Open Scope string_scope.

(* ===================================================================== *)
(** ** Protocol data *)
(* ===================================================================== *)

Abbreviation Uint8Array := (list Byte.byte).
Abbreviation JsonStringMap := (gmap string string).

(** protocol/voice-bots: [BotTurnDisposition] *)
Inductive BotTurnDisposition := match_ | no_match | no_input.

Inductive EventEntity :=
| EventEntityBargeIn
| EventEntityBotTurnResponse
    (disposition : BotTurnDisposition) (text : string) (confidence : option Q).

(** The [parameters] object of an outbound envelope. *)
Inductive Parameters :=
| EventParameters (entities : list EventEntity)
| DisconnectParameters (reason info : string) (outputVariables : JsonStringMap)
| EmptyParameters
| OtherParameters (json : string).

Record ServerMessage := mkServerMessage {
  sm_id : string;
  sm_version : string;
  sm_seq : Z;
  sm_clientseq : Z;
  sm_type : string;
  sm_parameters : Parameters
}.

(** The object [JSON.parse] yields for an inbound text frame. *)
Record ClientMessage := mkClientMessage {
  cm_id : string;
  cm_seq : Z;
  cm_serverseq : Z;
  cm_type : string;
  cm_parameters : string
}.

(** services/bot-service.ts: [class BotResponse] *)
Record BotResponse := mkBotResponse {
  disposition : BotTurnDisposition;
  text : string;
  confidence : option Q;
  audioBytes : option Uint8Array;
  endSession : option bool
}.

(** JavaScript truthiness of the three fields the session tests. *)
Definition truthy_string (s : string) : bool :=
  match s with EmptyString => false | String _ _ => true end.

Definition truthy_flag (b : option bool) : bool :=
  match b with Some true => true | _ => false end.

(* ===================================================================== *)
(** ** Collaborators *)
(* ===================================================================== *)

(** *** The socket *)

Inductive Frame :=
| TextFrame (message : ServerMessage)
| BinaryFrame (bytes : Uint8Array).

Record WebSocket := mkWebSocket {
  sent : list Frame;
  closeCalls : nat;
  closeThrows : bool
}.

Inductive Completion := Normal | Throws.

Definition ws_send (w : WebSocket) (f : Frame) : WebSocket :=
  {| sent := sent w ++ [f]; closeCalls := closeCalls w;
     closeThrows := closeThrows w |}.

Definition ws_close (w : WebSocket) : Completion * WebSocket :=
  (if closeThrows w then Throws else Normal,
   {| sent := sent w; closeCalls := S (closeCalls w);
      closeThrows := closeThrows w |}).

(** *** The capture engines *)

Inductive EngineState := Idle | Capturing | Complete.

(** Modelled from the spec: services/asr-service.ts is not among the sources.
    A speech engine is a state machine Idle, Capturing, Complete; it records
    the audio handed to [processAudio]. *)
Record ASRService := mkASRService {
  asr_state : EngineState;
  asr_audio : list Uint8Array
}.

Definition new_ASRService : ASRService :=
  {| asr_state := Idle; asr_audio := [] |}.

Definition feed (st : EngineState) : EngineState :=
  match st with Complete => Complete | _ => Capturing end.

Definition asr_processAudio (e : ASRService) (data : Uint8Array) : ASRService :=
  {| asr_state := feed (asr_state e); asr_audio := asr_audio e ++ [data] |}.

Definition asr_complete (e : ASRService) : ASRService :=
  {| asr_state := Complete; asr_audio := asr_audio e |}.

(** Modelled from the spec: services/dtmf-service.ts is not among the sources.
    Same state contract; it records the digits handed to [processDigit]. *)
Record DTMFService := mkDTMFService {
  dtmf_state : EngineState;
  dtmf_digits : list string
}.

Definition new_DTMFService : DTMFService :=
  {| dtmf_state := Idle; dtmf_digits := [] |}.

Definition dtmf_processDigit (e : DTMFService) (digit : string) : DTMFService :=
  {| dtmf_state := feed (dtmf_state e); dtmf_digits := dtmf_digits e ++ [digit] |}.

Definition dtmf_complete (e : DTMFService) : DTMFService :=
  {| dtmf_state := Complete; dtmf_digits := dtmf_digits e |}.

(** [!this.asrService || this.asrService.getState() === 'Complete'] *)
Definition asr_needs_new (o : option ASRService) : bool :=
  match o with
  | None => true
  | Some e => match asr_state e with Complete => true | _ => false end
  end.

Definition dtmf_needs_new (o : option DTMFService) : bool :=
  match o with
  | None => true
  | Some e => match dtmf_state e with Complete => true | _ => false end
  end.

(** An engine is live when the session holds it and it is mid-capture. *)
Definition asr_live (o : option ASRService) : bool :=
  match o with
  | Some e => match asr_state e with Capturing => true | _ => false end
  | None => false
  end.

Definition dtmf_live (o : option DTMFService) : bool :=
  match o with
  | Some e => match dtmf_state e with Capturing => true | _ => false end
  | None => false
  end.

(** *** The bot gateway *)

Inductive BotRequest :=
| GetInitialResponse
| GetBotResponse (userInput : string).

(** services/bot-service.ts: [class BotResource], seen from the session: the
    requests it was asked, in order. *)
Record BotResource := mkBotResource {
  requests : list BotRequest
}.

Definition new_BotResource : BotResource := {| requests := [] |}.

Definition bot_ask (b : BotResource) (r : BotRequest) : BotResource :=
  {| requests := requests b ++ [r] |}.

(** The three [.then] callbacks of the session. *)
Inductive Continuation := OnStartReply | OnSpeechReply | OnDigitsReply.

Global Instance Continuation_eq_dec : EqDecision Continuation.
Proof. solve_decision. Defined.

(** *** Message handlers *)

(** The handlers of websocket/message-handlers are not among the sources: a
    registry of handlers is a parameter of the session.  The session offers
    handlers no getter, so what a handler does to the session is the list of
    public methods it calls, fixed by the message; [CallSend] stands for
    [session.send(session.createMessage(type, parameters))]. *)
Inductive Call :=
| CallSetConversationId (conversationId : string)
| CallSetInputVariables (inputVariables : JsonStringMap)
| CallSetSelectedMedia (selectedMedia : string)
| CallSetIsAudioPlaying (isAudioPlaying : bool)
| CallSend (type : string) (parameters : Parameters)
| CallSendAudio (bytes : Uint8Array)
| CallSendBargeIn
| CallSendTurnResponse
    (disposition : BotTurnDisposition) (text : string) (confidence : option Q)
| CallSendDisconnect (reason info : string) (outputVariables : JsonStringMap)
| CallSendClosed
| CallCheckIfBotExists
| CallProcessBotStart
| CallProcessDTMF (digit : string)
| CallClose.

Definition MessageHandler := ClientMessage -> list Call.

(* ===================================================================== *)
(** ** The session *)
(* ===================================================================== *)

Record Session := mkSession {
  disconnecting : bool;
  closed : bool;
  ws : WebSocket;
  messageHandlerRegistry : gmap string MessageHandler;
  asrService : option ASRService;
  dtmfService : option DTMFService;
  url : string;
  clientSessionId : string;
  conversationId : option string;
  lastServerSequenceNumber : Z;
  lastClientSequenceNumber : Z;
  inputVariables : JsonStringMap;
  selectedMedia : option string;
  selectedBot : option BotResource;
  isCapturingDTMF : bool;
  isAudioPlaying : bool;
  (* bookkeeping of the embedding *)
  handled : list ClientMessage;     (* handler.handleMessage invocations *)
  pending : list Continuation       (* [.then] callbacks not yet run *)
}.

(** [new Session(ws, sessionId, url)] *)
Definition new_Session (registry : gmap string MessageHandler)
    (w : WebSocket) (sessionId url_ : string) : Session :=
  {| disconnecting := false; closed := false; ws := w;
     messageHandlerRegistry := registry;
     asrService := None; dtmfService := None;
     url := url_; clientSessionId := sessionId; conversationId := None;
     lastServerSequenceNumber := 0; lastClientSequenceNumber := 0;
     inputVariables := ∅; selectedMedia := None; selectedBot := None;
     isCapturingDTMF := false; isAudioPlaying := false;
     handled := []; pending := [] |}.

(** Field assignment [this.f = v]. *)
Definition set_disconnecting (v : bool) (s : Session) : Session :=
  {| disconnecting := v; closed := closed s; ws := ws s;
     messageHandlerRegistry := messageHandlerRegistry s;
     asrService := asrService s; dtmfService := dtmfService s; url := url s;
     clientSessionId := clientSessionId s;
     conversationId := conversationId s;
     lastServerSequenceNumber := lastServerSequenceNumber s;
     lastClientSequenceNumber := lastClientSequenceNumber s;
     inputVariables := inputVariables s; selectedMedia := selectedMedia s;
     selectedBot := selectedBot s; isCapturingDTMF := isCapturingDTMF s;
     isAudioPlaying := isAudioPlaying s; handled := handled s;
     pending := pending s |}.

Definition set_closed (v : bool) (s : Session) : Session :=
  {| disconnecting := disconnecting s; closed := v; ws := ws s;
     messageHandlerRegistry := messageHandlerRegistry s;
     asrService := asrService s; dtmfService := dtmfService s; url := url s;
     clientSessionId := clientSessionId s;
     conversationId := conversationId s;
     lastServerSequenceNumber := lastServerSequenceNumber s;
     lastClientSequenceNumber := lastClientSequenceNumber s;
     inputVariables := inputVariables s; selectedMedia := selectedMedia s;
     selectedBot := selectedBot s; isCapturingDTMF := isCapturingDTMF s;
     isAudioPlaying := isAudioPlaying s; handled := handled s;
     pending := pending s |}.

Definition set_ws (v : WebSocket) (s : Session) : Session :=
  {| disconnecting := disconnecting s; closed := closed s; ws := v;
     messageHandlerRegistry := messageHandlerRegistry s;
     asrService := asrService s; dtmfService := dtmfService s; url := url s;
     clientSessionId := clientSessionId s;
     conversationId := conversationId s;
     lastServerSequenceNumber := lastServerSequenceNumber s;
     lastClientSequenceNumber := lastClientSequenceNumber s;
     inputVariables := inputVariables s; selectedMedia := selectedMedia s;
     selectedBot := selectedBot s; isCapturingDTMF := isCapturingDTMF s;
     isAudioPlaying := isAudioPlaying s; handled := handled s;
     pending := pending s |}.

Definition set_asrService (v : option ASRService) (s : Session) : Session :=
  {| disconnecting := disconnecting s; closed := closed s; ws := ws s;
     messageHandlerRegistry := messageHandlerRegistry s; asrService := v;
     dtmfService := dtmfService s; url := url s;
     clientSessionId := clientSessionId s;
     conversationId := conversationId s;
     lastServerSequenceNumber := lastServerSequenceNumber s;
     lastClientSequenceNumber := lastClientSequenceNumber s;
     inputVariables := inputVariables s; selectedMedia := selectedMedia s;
     selectedBot := selectedBot s; isCapturingDTMF := isCapturingDTMF s;
     isAudioPlaying := isAudioPlaying s; handled := handled s;
     pending := pending s |}.

Definition set_dtmfService (v : option DTMFService) (s : Session) : Session :=
  {| disconnecting := disconnecting s; closed := closed s; ws := ws s;
     messageHandlerRegistry := messageHandlerRegistry s;
     asrService := asrService s; dtmfService := v; url := url s;
     clientSessionId := clientSessionId s;
     conversationId := conversationId s;
     lastServerSequenceNumber := lastServerSequenceNumber s;
     lastClientSequenceNumber := lastClientSequenceNumber s;
     inputVariables := inputVariables s; selectedMedia := selectedMedia s;
     selectedBot := selectedBot s; isCapturingDTMF := isCapturingDTMF s;
     isAudioPlaying := isAudioPlaying s; handled := handled s;
     pending := pending s |}.

Definition set_conversationId (v : option string) (s : Session) : Session :=
  {| disconnecting := disconnecting s; closed := closed s; ws := ws s;
     messageHandlerRegistry := messageHandlerRegistry s;
     asrService := asrService s; dtmfService := dtmfService s; url := url s;
     clientSessionId := clientSessionId s; conversationId := v;
     lastServerSequenceNumber := lastServerSequenceNumber s;
     lastClientSequenceNumber := lastClientSequenceNumber s;
     inputVariables := inputVariables s; selectedMedia := selectedMedia s;
     selectedBot := selectedBot s; isCapturingDTMF := isCapturingDTMF s;
     isAudioPlaying := isAudioPlaying s; handled := handled s;
     pending := pending s |}.

Definition set_lastServerSequenceNumber (v : Z) (s : Session) : Session :=
  {| disconnecting := disconnecting s; closed := closed s; ws := ws s;
     messageHandlerRegistry := messageHandlerRegistry s;
     asrService := asrService s; dtmfService := dtmfService s; url := url s;
     clientSessionId := clientSessionId s;
     conversationId := conversationId s; lastServerSequenceNumber := v;
     lastClientSequenceNumber := lastClientSequenceNumber s;
     inputVariables := inputVariables s; selectedMedia := selectedMedia s;
     selectedBot := selectedBot s; isCapturingDTMF := isCapturingDTMF s;
     isAudioPlaying := isAudioPlaying s; handled := handled s;
     pending := pending s |}.

Definition set_lastClientSequenceNumber (v : Z) (s : Session) : Session :=
  {| disconnecting := disconnecting s; closed := closed s; ws := ws s;
     messageHandlerRegistry := messageHandlerRegistry s;
     asrService := asrService s; dtmfService := dtmfService s; url := url s;
     clientSessionId := clientSessionId s;
     conversationId := conversationId s;
     lastServerSequenceNumber := lastServerSequenceNumber s;
     lastClientSequenceNumber := v; inputVariables := inputVariables s;
     selectedMedia := selectedMedia s; selectedBot := selectedBot s;
     isCapturingDTMF := isCapturingDTMF s;
     isAudioPlaying := isAudioPlaying s; handled := handled s;
     pending := pending s |}.

Definition set_inputVariables (v : JsonStringMap) (s : Session) : Session :=
  {| disconnecting := disconnecting s; closed := closed s; ws := ws s;
     messageHandlerRegistry := messageHandlerRegistry s;
     asrService := asrService s; dtmfService := dtmfService s; url := url s;
     clientSessionId := clientSessionId s;
     conversationId := conversationId s;
     lastServerSequenceNumber := lastServerSequenceNumber s;
     lastClientSequenceNumber := lastClientSequenceNumber s;
     inputVariables := v; selectedMedia := selectedMedia s;
     selectedBot := selectedBot s; isCapturingDTMF := isCapturingDTMF s;
     isAudioPlaying := isAudioPlaying s; handled := handled s;
     pending := pending s |}.

Definition set_selectedMedia (v : option string) (s : Session) : Session :=
  {| disconnecting := disconnecting s; closed := closed s; ws := ws s;
     messageHandlerRegistry := messageHandlerRegistry s;
     asrService := asrService s; dtmfService := dtmfService s; url := url s;
     clientSessionId := clientSessionId s;
     conversationId := conversationId s;
     lastServerSequenceNumber := lastServerSequenceNumber s;
     lastClientSequenceNumber := lastClientSequenceNumber s;
     inputVariables := inputVariables s; selectedMedia := v;
     selectedBot := selectedBot s; isCapturingDTMF := isCapturingDTMF s;
     isAudioPlaying := isAudioPlaying s; handled := handled s;
     pending := pending s |}.

Definition set_selectedBot (v : option BotResource) (s : Session) : Session :=
  {| disconnecting := disconnecting s; closed := closed s; ws := ws s;
     messageHandlerRegistry := messageHandlerRegistry s;
     asrService := asrService s; dtmfService := dtmfService s; url := url s;
     clientSessionId := clientSessionId s;
     conversationId := conversationId s;
     lastServerSequenceNumber := lastServerSequenceNumber s;
     lastClientSequenceNumber := lastClientSequenceNumber s;
     inputVariables := inputVariables s; selectedMedia := selectedMedia s;
     selectedBot := v; isCapturingDTMF := isCapturingDTMF s;
     isAudioPlaying := isAudioPlaying s; handled := handled s;
     pending := pending s |}.

Definition set_isCapturingDTMF (v : bool) (s : Session) : Session :=
  {| disconnecting := disconnecting s; closed := closed s; ws := ws s;
     messageHandlerRegistry := messageHandlerRegistry s;
     asrService := asrService s; dtmfService := dtmfService s; url := url s;
     clientSessionId := clientSessionId s;
     conversationId := conversationId s;
     lastServerSequenceNumber := lastServerSequenceNumber s;
     lastClientSequenceNumber := lastClientSequenceNumber s;
     inputVariables := inputVariables s; selectedMedia := selectedMedia s;
     selectedBot := selectedBot s; isCapturingDTMF := v;
     isAudioPlaying := isAudioPlaying s; handled := handled s;
     pending := pending s |}.

Definition set_isAudioPlaying (v : bool) (s : Session) : Session :=
  {| disconnecting := disconnecting s; closed := closed s; ws := ws s;
     messageHandlerRegistry := messageHandlerRegistry s;
     asrService := asrService s; dtmfService := dtmfService s; url := url s;
     clientSessionId := clientSessionId s;
     conversationId := conversationId s;
     lastServerSequenceNumber := lastServerSequenceNumber s;
     lastClientSequenceNumber := lastClientSequenceNumber s;
     inputVariables := inputVariables s; selectedMedia := selectedMedia s;
     selectedBot := selectedBot s; isCapturingDTMF := isCapturingDTMF s;
     isAudioPlaying := v; handled := handled s; pending := pending s |}.

Definition set_handled (v : list ClientMessage) (s : Session) : Session :=
  {| disconnecting := disconnecting s; closed := closed s; ws := ws s;
     messageHandlerRegistry := messageHandlerRegistry s;
     asrService := asrService s; dtmfService := dtmfService s; url := url s;
     clientSessionId := clientSessionId s;
     conversationId := conversationId s;
     lastServerSequenceNumber := lastServerSequenceNumber s;
     lastClientSequenceNumber := lastClientSequenceNumber s;
     inputVariables := inputVariables s; selectedMedia := selectedMedia s;
     selectedBot := selectedBot s; isCapturingDTMF := isCapturingDTMF s;
     isAudioPlaying := isAudioPlaying s; handled := v;
     pending := pending s |}.

Definition set_pending (v : list Continuation) (s : Session) : Session :=
  {| disconnecting := disconnecting s; closed := closed s; ws := ws s;
     messageHandlerRegistry := messageHandlerRegistry s;
     asrService := asrService s; dtmfService := dtmfService s; url := url s;
     clientSessionId := clientSessionId s;
     conversationId := conversationId s;
     lastServerSequenceNumber := lastServerSequenceNumber s;
     lastClientSequenceNumber := lastClientSequenceNumber s;
     inputVariables := inputVariables s; selectedMedia := selectedMedia s;
     selectedBot := selectedBot s; isCapturingDTMF := isCapturingDTMF s;
     isAudioPlaying := isAudioPlaying s; handled := handled s;
     pending := v |}.

(* ===================================================================== *)
(** ** Methods as state transformers that may throw *)
(* ===================================================================== *)

Inductive Outcome (A : Type) :=
| Return (a : A)
| Raise.
Arguments Return {A} a.
Arguments Raise {A}.

Definition M (A : Type) : Type := Session -> Outcome A * Session.

Definition ret {A} (a : A) : M A := fun s => (Return a, s).

Definition raise {A} : M A := fun s => (Raise, s).

Definition bind {A B} (m : M A) (k : A -> M B) : M B :=
  fun s =>
    match m s with
    | (Return a, s') => k a s'
    | (Raise, s') => (Raise, s')
    end.

Definition this : M Session := fun s => (Return s, s).

Definition assign (f : Session -> Session) : M unit :=
  fun s => (Return tt, f s).

(** [try { m } catch {}] *)
Definition try_catch (m : M unit) : M unit :=
  fun s => (Return tt, snd (m s)).

Notation "x <- m ;; k" := (bind m (fun x => k))
  (at level 100, m at next level, right associativity).
Notation "m ;; k" := (bind m (fun _ => k))
  (at level 100, right associativity).

(** The state a method leaves behind, whether it returned or threw. *)
Definition after {A} (m : M A) (s : Session) : Session := snd (m s).

Definition returns {A} (m : M A) (s : Session) : Prop :=
  exists a, fst (m s) = Return a.

(** *** Calls on the socket *)

Definition ws_send_ (f : Frame) : M unit :=
  assign (fun s => set_ws (ws_send (ws s) f) s).

Definition ws_close_ : M unit :=
  fun s =>
    let '(c, w) := ws_close (ws s) in
    (match c with Normal => Return tt | Throws => Raise end, set_ws w s).

(** *** Shutdown and setters *)

Definition close : M unit :=
  s <- this ;;
  if closed s then ret tt
  else
    try_catch ws_close_ ;;
    assign (set_closed true).

Definition setConversationId (conversationId : string) : M unit :=
  assign (set_conversationId (Some conversationId)).

Definition setInputVariables (inputVariables : JsonStringMap) : M unit :=
  assign (set_inputVariables inputVariables).

Definition setSelectedMedia (selectedMedia : string) : M unit :=
  assign (set_selectedMedia (Some selectedMedia)).

Definition setIsAudioPlaying (isAudioPlaying : bool) : M unit :=
  assign (set_isAudioPlaying isAudioPlaying).

(** *** Outbound envelopes *)

Definition createMessage (type : string) (parameters : Parameters)
  : M ServerMessage :=
  s <- this ;;
  let seq := lastServerSequenceNumber s + 1 in      (* ++this.last... *)
  assign (set_lastServerSequenceNumber seq) ;;
  ret {| sm_id := clientSessionId s;
         sm_version := "2";
         sm_seq := seq;
         sm_clientseq := lastClientSequenceNumber s;
         sm_type := type;
         sm_parameters := parameters |}.

(** The log line of [send] reads [message.parameters.entities[0].type] of an
    event envelope; that read throws when there is no first entity. *)
Definition loggable (message : ServerMessage) : bool :=
  if String.eqb (sm_type message) "event" then
    match sm_parameters message with
    | EventParameters (_ :: _) => true
    | _ => false
    end
  else true.

Definition send (message : ServerMessage) : M unit :=
  if loggable message then ws_send_ (TextFrame message) else raise.

Definition sendBargeIn : M unit :=
  message <- createMessage "event" (EventParameters [EventEntityBargeIn]) ;;
  send message.

Definition sendTurnResponse (disposition : BotTurnDisposition)
    (text : string) (confidence : option Q) : M unit :=
  message <- createMessage "event"
    (EventParameters [EventEntityBotTurnResponse disposition text confidence]) ;;
  send message.

Definition sendDisconnect (reason info : string)
    (outputVariables : JsonStringMap) : M unit :=
  assign (set_disconnecting true) ;;
  message <- createMessage "disconnect"
    (DisconnectParameters reason info outputVariables) ;;
  send message.

Definition sendClosed : M unit :=
  message <- createMessage "closed" EmptyParameters ;;
  send message.

(** *** Outbound audio *)

Definition MAXIMUM_BINARY_MESSAGE_SIZE : Z := 64000.

(** [bytes.slice(start, end)] for [0 <= start <= end]. *)
Definition slice (bytes : Uint8Array) (start end_ : Z) : Uint8Array :=
  take (Z.to_nat (end_ - start)) (drop (Z.to_nat start) bytes).

Equations? sendAudio_loop (w : WebSocket) (bytes : Uint8Array)
    (currentPosition : Z) : WebSocket
    by wf (Z.to_nat (Z.of_nat (length bytes) - currentPosition)) lt :=
  sendAudio_loop w bytes currentPosition
    with decide (currentPosition < Z.of_nat (length bytes)) := {
    | left _ =>
        let sendBytes :=
          slice bytes currentPosition
            (currentPosition + MAXIMUM_BINARY_MESSAGE_SIZE) in
        sendAudio_loop (ws_send w (BinaryFrame sendBytes)) bytes
          (currentPosition + MAXIMUM_BINARY_MESSAGE_SIZE);
    | right _ => w }.
Proof. unfold MAXIMUM_BINARY_MESSAGE_SIZE. lia. Qed.

Definition sendAudio (bytes : Uint8Array) : M unit :=
  if decide (Z.of_nat (length bytes) <= MAXIMUM_BINARY_MESSAGE_SIZE) then
    ws_send_ (BinaryFrame bytes)
  else
    assign (fun s => set_ws (sendAudio_loop (ws s) bytes 0) s).

(** *** Bot interaction *)

(** [checkIfBotExists]: the promise it returns always resolves to [true]. *)
Definition checkIfBotExists : M bool :=
  assign (set_selectedBot (Some new_BotResource)) ;;
  ret true.

(** [bot.getInitialResponse().then(k)] and [bot.getBotResponse(t).then(k)]:
    the gateway is asked and [k] waits for the reply. *)
Definition ask_then (r : BotRequest) (k : Continuation) : M unit :=
  s <- this ;;
  match selectedBot s with
  | None => raise                          (* [this.selectedBot!] on null *)
  | Some bot =>
      assign (set_selectedBot (Some (bot_ask bot r))) ;;
      assign (fun s => set_pending (pending s ++ [k]) s)
  end.

Definition when (b : bool) (m : M unit) : M unit :=
  if b then m else ret tt.

Definition when_some {A} (o : option A) (m : A -> M unit) : M unit :=
  match o with Some a => m a | None => ret tt end.

(** The [.then] callback of [processBotStart]. *)
Definition onStartReply (response : BotResponse) : M unit :=
  when (truthy_string (text response))
    (sendTurnResponse (disposition response) (text response)
       (confidence response)) ;;
  when_some (audioBytes response) sendAudio.

Definition processBotStart : M unit :=
  s <- this ;;
  match selectedBot s with
  | None => ret tt
  | Some _ => ask_then GetInitialResponse OnStartReply
  end.

(** *** Speech capture *)

(** The [.then] callback inside the ['final-transcript'] listener. *)
Definition onSpeechReply (response : BotResponse) : M unit :=
  when (truthy_string (text response))
    (sendTurnResponse (disposition response) (text response)
       (confidence response)) ;;
  when_some (audioBytes response) sendAudio ;;
  when (truthy_flag (endSession response))
    (sendDisconnect "completed" "" ∅).

(** The ['error'] listener of the speech engine. *)
Definition onSpeechError : M unit :=
  s <- this ;;
  if isCapturingDTMF s then ret tt
  else sendDisconnect "error" "Error during Speech Recognition." ∅.

(** The ['final-transcript'] listener of the speech engine. *)
Definition onFinalTranscript (transcript_text : string) : M unit :=
  s <- this ;;
  if isCapturingDTMF s then ret tt
  else ask_then (GetBotResponse transcript_text) OnSpeechReply.

Definition processBinaryMessage (data : Uint8Array) : M unit :=
  s <- this ;;
  if disconnecting s || closed s || negb (bool_decide (is_Some (selectedBot s)))
  then ret tt
  else if isCapturingDTMF s then ret tt
  else if isAudioPlaying s then
    assign (set_asrService None) ;;
    assign (set_dtmfService None)
  else
    when (asr_needs_new (asrService s))
      (assign (set_asrService (Some new_ASRService))) ;;
    s <- this ;;
    match asrService s with
    | None => raise
    | Some e => assign (set_asrService (Some (asr_processAudio e data)))
    end.

(** *** Digit capture *)

(** The [.then] callback inside the ['final-digits'] listener. *)
Definition onDigitsReply (response : BotResponse) : M unit :=
  when (truthy_string (text response))
    (sendTurnResponse (disposition response) (text response)
       (confidence response)) ;;
  when_some (audioBytes response) sendAudio ;;
  when (truthy_flag (endSession response))
    (sendDisconnect "completed" "" ∅) ;;
  assign (set_isCapturingDTMF false).

(** The ['error'] listener of the digit engine. *)
Definition onDigitsError : M unit :=
  sendDisconnect "error" "Error during DTMF Capture." ∅.

(** The ['final-digits'] listener of the digit engine. *)
Definition onFinalDigits (digits : string) : M unit :=
  ask_then (GetBotResponse digits) OnDigitsReply.

Definition processDTMF (digit : string) : M unit :=
  s <- this ;;
  if disconnecting s || closed s || negb (bool_decide (is_Some (selectedBot s)))
  then ret tt
  else if isAudioPlaying s then
    assign (set_asrService None) ;;
    assign (set_dtmfService None)
  else
    when (negb (isCapturingDTMF s))
      (assign (set_isCapturingDTMF true) ;;
       assign (set_asrService None)) ;;
    s <- this ;;
    when (dtmf_needs_new (dtmfService s))
      (assign (set_dtmfService (Some new_DTMFService))) ;;
    s <- this ;;
    match dtmfService s with
    | None => raise
    | Some e => assign (set_dtmfService (Some (dtmf_processDigit e digit)))
    end.

(** *** Inbound envelopes *)

Definition exec_call (c : Call) : M unit :=
  match c with
  | CallSetConversationId v => setConversationId v
  | CallSetInputVariables v => setInputVariables v
  | CallSetSelectedMedia v => setSelectedMedia v
  | CallSetIsAudioPlaying v => setIsAudioPlaying v
  | CallSend type parameters =>
      message <- createMessage type parameters ;; send message
  | CallSendAudio bytes => sendAudio bytes
  | CallSendBargeIn => sendBargeIn
  | CallSendTurnResponse d t c => sendTurnResponse d t c
  | CallSendDisconnect reason info vars => sendDisconnect reason info vars
  | CallSendClosed => sendClosed
  | CallCheckIfBotExists => checkIfBotExists ;; ret tt
  | CallProcessBotStart => processBotStart
  | CallProcessDTMF digit => processDTMF digit
  | CallClose => close
  end.

Fixpoint exec_calls (cs : list Call) : M unit :=
  match cs with
  | [] => ret tt
  | c :: cs' => exec_call c ;; exec_calls cs'
  end.

(** [handler.handleMessage(message, this)] *)
Definition handleMessage (handler : MessageHandler) (message : ClientMessage)
  : M unit :=
  assign (fun s => set_handled (handled s ++ [message]) s) ;;
  exec_calls (handler message).

Definition processTextMessage (message : ClientMessage) : M unit :=
  s <- this ;;
  if closed s then ret tt
  else if negb (Z.eqb (cm_seq message) (lastClientSequenceNumber s + 1)) then
    sendDisconnect "error" "Invalid client sequence number." ∅
  else
    assign (set_lastClientSequenceNumber (cm_seq message)) ;;
    s <- this ;;
    if Z.ltb (lastServerSequenceNumber s) (cm_serverseq message) then
      sendDisconnect "error" "Invalid server sequence number." ∅
    else if negb (String.eqb (cm_id message) (clientSessionId s)) then
      sendDisconnect "error" "Invalid ID specified." ∅
    else
      match messageHandlerRegistry s !! cm_type message with
      | None => ret tt
      | Some handler => handleMessage handler message
      end.

(* ===================================================================== *)
(** ** The event loop of one connection *)
(* ===================================================================== *)

(** What the event loop can deliver to a session.  An engine event names
    whether it comes from the engine the session currently holds ([held]) or
    from one it has dropped; a held engine that reports is Complete. *)
Inductive Event :=
| TextMessage (message : ClientMessage)
| BinaryMessage (data : Uint8Array)
| SpeechError (held : bool)
| FinalTranscript (held : bool) (transcript_text : string)
| DigitsError (held : bool)
| FinalDigits (held : bool) (digits : string)
| BotReply (k : Continuation) (response : BotResponse)
| SocketClosed.

Definition run_continuation (k : Continuation) (response : BotResponse)
  : M unit :=
  match k with
  | OnStartReply => onStartReply response
  | OnSpeechReply => onSpeechReply response
  | OnDigitsReply => onDigitsReply response
  end.

Fixpoint remove_first (k : Continuation) (l : list Continuation)
  : list Continuation :=
  match l with
  | [] => []
  | k' :: l' => if decide (k = k') then l' else k' :: remove_first k l'
  end.

Definition asr_reports (held : bool) (s : Session) : option Session :=
  if held then
    match asrService s with
    | Some e =>
        match asr_state e with
        | Capturing => Some (set_asrService (Some (asr_complete e)) s)
        | _ => None
        end
    | None => None
    end
  else Some s.

Definition dtmf_reports (held : bool) (s : Session) : option Session :=
  if held then
    match dtmfService s with
    | Some e =>
        match dtmf_state e with
        | Capturing => Some (set_dtmfService (Some (dtmf_complete e)) s)
        | _ => None
        end
    | None => None
    end
  else Some s.

(** One delivery.  An event that cannot occur in [s] (a reply nobody waits
    for, a report of a held engine that is not capturing) leaves [s] as it
    is; an exception escaping a listener is lost to the event loop. *)
Definition step (s : Session) (e : Event) : Session :=
  match e with
  | TextMessage message => after (processTextMessage message) s
  | BinaryMessage data => after (processBinaryMessage data) s
  | SpeechError held =>
      match asr_reports held s with
      | Some s' => after onSpeechError s'
      | None => s
      end
  | FinalTranscript held t =>
      match asr_reports held s with
      | Some s' => after (onFinalTranscript t) s'
      | None => s
      end
  | DigitsError held =>
      match dtmf_reports held s with
      | Some s' => after onDigitsError s'
      | None => s
      end
  | FinalDigits held d =>
      match dtmf_reports held s with
      | Some s' => after (onFinalDigits d) s'
      | None => s
      end
  | BotReply k response =>
      if bool_decide (k ∈ pending s) then
        after (run_continuation k response)
          (set_pending (remove_first k (pending s)) s)
      else s
  | SocketClosed => after close s
  end.

Definition run (s : Session) (es : list Event) : Session :=
  foldl step s es.

(* ===================================================================== *)
(** ** Vocabulary of the properties *)
(* ===================================================================== *)

(** A relation between the state before and the state after that holds
    across a method, whether it returns or throws. *)
Definition keeps (R : Session -> Session -> Prop) {A} (m : M A) : Prop :=
  forall s, R s (after m s).

(** The envelope the session would stamp next. *)
Definition stamped (s : Session) (type : string) (parameters : Parameters)
  : ServerMessage :=
  {| sm_id := clientSessionId s;
     sm_version := "2";
     sm_seq := lastServerSequenceNumber s + 1;
     sm_clientseq := lastClientSequenceNumber s;
     sm_type := type;
     sm_parameters := parameters |}.

(** [send(createMessage(type, parameters))] when the log line can be
    written: counter bumped, envelope appended. *)
Definition emit (type : string) (parameters : Parameters) (s : Session)
  : Session :=
  set_ws (ws_send (ws s) (TextFrame (stamped s type parameters)))
    (set_lastServerSequenceNumber (lastServerSequenceNumber s + 1) s).

(** The socket after [frames] more sends. *)
Definition ws_sends (w : WebSocket) (frames : list Frame) : WebSocket :=
  {| sent := sent w ++ frames; closeCalls := closeCalls w;
     closeThrows := closeThrows w |}.

(** [chunks] cut [bytes] from [pos] on into slices of the maximum size, the
    last one possibly shorter: they concatenate to the rest of [bytes], there
    are ceil((length - pos) / maximum) of them, none exceeds the maximum, and
    every one that has a successor is full. *)
Definition chunked (bytes : Uint8Array) (pos : Z) (chunks : list Uint8Array)
  : Prop :=
  concat chunks = drop (Z.to_nat pos) bytes /\
  Z.of_nat (length chunks) =
    Z.max 0 ((Z.of_nat (length bytes) - pos + MAXIMUM_BINARY_MESSAGE_SIZE - 1)
             / MAXIMUM_BINARY_MESSAGE_SIZE) /\
  Forall (fun c => Z.of_nat (length c) <= MAXIMUM_BINARY_MESSAGE_SIZE) chunks /\
  (forall (i : nat) c, chunks !! i = Some c -> (S i < length chunks)%nat ->
     Z.of_nat (length c) = MAXIMUM_BINARY_MESSAGE_SIZE).

(** The frames [sendAudio(bytes)] puts on a socket that has sent nothing. *)
Definition audio_frames (bytes : Uint8Array) : list Frame :=
  sent (ws (after (sendAudio bytes)
    (new_Session ∅ {| sent := []; closeCalls := 0; closeThrows := false |}
       "" ""))).

(** *** What a bot reply that completes a turn puts on the socket *)

(** Stage one: the bot_turn_response event, if the reply carries text. *)
Definition turn_event (s : Session) (response : BotResponse) : list Frame :=
  if truthy_string (text response) then
    [TextFrame (stamped s "event"
       (EventParameters
          [EventEntityBotTurnResponse (disposition response) (text response)
             (confidence response)]))]
  else [].

(** Stage two: the audio, if the reply carries audio bytes. *)
Definition turn_audio (response : BotResponse) : list Frame :=
  match audioBytes response with
  | Some bytes => audio_frames bytes
  | None => []
  end.

(** The session once stage one is through: the counter moved if it sent. *)
Definition after_turn_event (s : Session) (response : BotResponse) : Session :=
  if truthy_string (text response) then
    set_lastServerSequenceNumber (lastServerSequenceNumber s + 1) s
  else s.

(** Stage three: the disconnect, if the reply ends the session. *)
Definition turn_disconnect (s : Session) (response : BotResponse)
  : list Frame :=
  if truthy_flag (endSession response) then
    [TextFrame (stamped (after_turn_event s response) "disconnect"
       (DisconnectParameters "completed" "" ∅))]
  else [].

(** *** Statements about capture arbitration *)

(** The guard that opens [processBinaryMessage] and [processDTMF]. *)
Definition inert (s : Session) : bool :=
  disconnecting s || closed s || negb (bool_decide (is_Some (selectedBot s))).

(** [this.asrService = null; this.dtmfService = null] *)
Definition drop_engines (s : Session) : Session :=
  set_dtmfService None (set_asrService None s).

(** *** A session to exercise the methods on *)

(** A registry whose handlers call the session method made for their
    message: open picks the bot, acknowledges and asks for the greeting; dtmf
    passes its digit on; the playback events set the playback flag; ping is
    answered; close is acknowledged. *)
Definition example_registry : gmap string MessageHandler :=
  <["open" := fun _ =>
      [CallCheckIfBotExists; CallSend "opened" EmptyParameters;
       CallProcessBotStart]]>
  (<["dtmf" := fun m => [CallProcessDTMF (cm_parameters m)]]>
  (<["playback_started" := fun _ => [CallSetIsAudioPlaying true]]>
  (<["playback_completed" := fun _ => [CallSetIsAudioPlaying false]]>
  (<["ping" := fun _ => [CallSend "pong" EmptyParameters]]>
  (<["close" := fun _ => [CallSendClosed]]> ∅))))).

Definition example_socket : WebSocket :=
  {| sent := []; closeCalls := 0; closeThrows := true |}.

Definition example_session : Session :=
  new_Session example_registry example_socket "call-1" "/ws/audio".

(** An inbound envelope of the example call that passes the server-sequence
    and identifier checks. *)
Definition inbound (seq : Z) (type parameters : string) : ClientMessage :=
  {| cm_id := "call-1"; cm_seq := seq; cm_serverseq := 0; cm_type := type;
     cm_parameters := parameters |}.

Definition example_reply : BotResponse :=
  {| disposition := match_; text := "Goodbye"; confidence := None;
     audioBytes := Some [Byte.x01; Byte.x02]; endSession := Some true |}.

(** The call was opened, the caller spoke, the transcript went to the bot,
    and the socket closed before the bot answered. *)
Definition closed_while_bot_thinks : Session :=
  run example_session
    [TextMessage (inbound 1 "open" "");
     BinaryMessage [Byte.x10];
     FinalTranscript true "hello";
     SocketClosed].

(** The call was opened, the caller spoke, the transcript went to the bot,
    and an envelope out of sequence made the session disconnect before the
    bot answered; the socket is still open. *)
Definition rejected_while_bot_thinks : Session :=
  run example_session
    [TextMessage (inbound 1 "open" "");
     BinaryMessage [Byte.x10];
     FinalTranscript true "hello";
     TextMessage (inbound 9 "ping" "")].

(** The call was opened, the caller pressed 5, then playback of a bot reply
    was announced. *)
Definition playback_during_digits : Session :=
  run example_session
    [TextMessage (inbound 1 "open" "");
     TextMessage (inbound 2 "dtmf" "5");
     TextMessage (inbound 3 "playback_started" "")].

(** *** Statements about inbound envelopes *)

(** What no method a handler can call touches: the inbound counter, the
    record of dispatched envelopes, the session identifier, the registry. *)
Definition inbound_same (s s' : Session) : Prop :=
  lastClientSequenceNumber s' = lastClientSequenceNumber s /\
  handled s' = handled s /\
  clientSessionId s' = clientSessionId s /\
  messageHandlerRegistry s' = messageHandlerRegistry s.

(** The three checks of [processTextMessage], in the order it makes them. *)
Inductive Verdict := BadSeq | BadServerSeq | BadId | Accepted.

Definition validate (s : Session) (message : ClientMessage) : Verdict :=
  if negb (Z.eqb (cm_seq message) (lastClientSequenceNumber s + 1)) then BadSeq
  else if Z.ltb (lastServerSequenceNumber s) (cm_serverseq message)
  then BadServerSeq
  else if negb (String.eqb (cm_id message) (clientSessionId s)) then BadId
  else Accepted.

(** The session after [sendDisconnect('error', info, {})]. *)
Definition disconnected_with (info : string) (s : Session) : Session :=
  emit "disconnect" (DisconnectParameters "error" info ∅)
    (set_disconnecting true s).

(** *** Statements about the two capture engines *)

(** While digits are being captured the session holds no speech engine. *)
Definition no_speech_during_digits (s : Session) : Prop :=
  isCapturingDTMF s = true -> asrService s = None.

(** [P] survives from the state before to the state after. *)
Definition preserves (P : Session -> Prop) (s s' : Session) : Prop :=
  P s -> P s'.

(** The caller pressed 1 and the digit engine reported it; while the bot was
    working on it the caller pressed 2; then the bot's reply to the first
    capture arrived and cleared [isCapturingDTMF]. *)
Definition reply_during_second_capture : Session :=
  run example_session
    [TextMessage (inbound 1 "open" "");
     TextMessage (inbound 2 "dtmf" "1");
     FinalDigits true "1";
     TextMessage (inbound 3 "dtmf" "2");
     BotReply OnDigitsReply
       {| disposition := match_; text := "Go on"; confidence := None;
          audioBytes := Some [Byte.x01]; endSession := None |}].

(** *** Statements about outbound sequence numbers *)

(** The envelopes among the frames a socket has sent, in order. *)
Fixpoint envelopes (frames : list Frame) : list ServerMessage :=
  match frames with
  | [] => []
  | TextFrame message :: rest => message :: envelopes rest
  | BinaryFrame _ :: rest => envelopes rest
  end.



(** From [s] to [s'] the session sent the envelopes [new], numbered without
    a gap from the counter of [s] on, each under the session's identifier
    and version 2, and the counter of [s'] is the number of the last. *)
Definition stamps_densely (s s' : Session) : Prop :=
  clientSessionId s' = clientSessionId s /\
  messageHandlerRegistry s' = messageHandlerRegistry s /\
  exists new : list ServerMessage,
    envelopes (sent (ws s')) = (envelopes (sent (ws s)) ++ new)%list /\
    sm_seq <$> new =
      seqZ (lastServerSequenceNumber s + 1) (Z.of_nat (length new)) /\
    lastServerSequenceNumber s' =
      lastServerSequenceNumber s + Z.of_nat (length new) /\
    Forall (fun m => sm_id m = clientSessionId s /\ sm_version m = "2") new.

(* ===================================================================== *)
(** ** Further vocabulary: the session over a whole call *)
(* ===================================================================== *)

(** The session has sent a disconnect or has been closed. *)
Definition shut (s : Session) : Prop :=
  disconnecting s = true \/ closed s = true.

(** What the engines the session holds have been handed so far. *)
Definition engine_input (s : Session)
  : option (list Uint8Array) * option (list string) :=
  (asr_audio <$> asrService s, dtmf_digits <$> dtmfService s).

(** A session that holds an engine has a bot. *)
Definition engine_needs_bot (s : Session) : Prop :=
  is_Some (asrService s) \/ is_Some (dtmfService s) ->
  is_Some (selectedBot s).

Definition is_text (e : Event) : bool :=
  match e with TextMessage _ => true | _ => false end.

(** The session takes speech: it is live, no digits are being captured and
    nothing is being played. *)
Definition listening (s : Session) : Prop :=
  inert s = false /\ isCapturingDTMF s = false /\ isAudioPlaying s = false.

(** The audio the next frame is appended to: that of the held engine unless
    it is Complete, in which case a new engine starts from nothing. *)
Definition asr_backlog (o : option ASRService) : list Uint8Array :=
  match o with
  | Some e => match asr_state e with Complete => [] | _ => asr_audio e end
  | None => []
  end.

Definition dtmf_backlog (o : option DTMFService) : list string :=
  match o with
  | Some e => match dtmf_state e with Complete => [] | _ => dtmf_digits e end
  | None => []
  end.

(** Envelopes of an unregistered type that follow one another in sequence
    from the inbound counter [last] on and pass the other two checks. *)
Fixpoint in_sequence (s : Session) (last : Z) (ms : list ClientMessage)
  : Prop :=
  match ms with
  | [] => True
  | m :: rest =>
      cm_seq m = last + 1 /\
      cm_serverseq m <= lastServerSequenceNumber s /\
      cm_id m = clientSessionId s /\
      messageHandlerRegistry s !! cm_type m = None /\
      in_sequence s (last + 1) rest
  end.

(** [f] reads the same before and after. *)
Definition unchanged {A} (f : Session -> A) (s s' : Session) : Prop :=
  f s' = f s.

(** Once shut, the session stays shut and its engines are handed nothing. *)
Definition shut_starves (s s' : Session) : Prop :=
  shut s -> shut s' /\ engine_input s' = engine_input s.

(** The digits of [digits] handed to [processDTMF] one after the other. *)
Definition press (s : Session) (digits : list string) : Session :=
  foldl (fun s digit => after (processDTMF digit) s) s digits.

(** A call once the bot is chosen and nothing else has happened. *)
Definition bot_chosen : Session :=
  after checkIfBotExists example_session.

(* ===================================================================== *)
(** ** The bot gateway and the synthesizer (services/) *)
(* ===================================================================== *)

Module Services.

(** How an asynchronous call stands: resolved with a value, rejected, or
    still waiting for an answer the outside world has not given. *)
Inductive Promise (A : Type) :=
| Resolved (a : A)
| Rejected
| Pending.
Arguments Resolved {A} a.
Arguments Rejected {A}.
Arguments Pending {A}.

Definition truthy_text (o : option string) : bool :=
  match o with Some t => truthy_string t | None => false end.

(** *** tts-service.ts *)

(** What [synthesizer.speakTextAsync] does with its two callbacks. *)
Inductive Synthesis :=
| SynthesisResult (errorDetails : option string) (audioData : Uint8Array)
| SynthesisError
| SynthesisSilent.

(** [TTSService.getAudioBytes] *)
Definition getAudioBytes (speakTextAsync : string -> Synthesis)
    (text : string) : Promise Uint8Array :=
  match speakTextAsync text with
  | SynthesisResult errorDetails audioData =>
      if truthy_text errorDetails then Rejected else Resolved audioData
  | SynthesisError => Rejected
  | SynthesisSilent => Pending
  end.

(** *** bot-service.ts: [class BotResponse] *)

(** [new BotResponse(disposition, text)] *)
Definition new_BotResponse (disposition : BotTurnDisposition) (text : string)
  : BotResponse :=
  {| disposition := disposition; text := text; confidence := None;
     audioBytes := None; endSession := None |}.

Definition withConfidence (conf : Q) (r : BotResponse) : BotResponse :=
  {| disposition := disposition r; text := text r; confidence := Some conf;
     audioBytes := audioBytes r; endSession := endSession r |}.

Definition withAudioBytes (bytes : Uint8Array) (r : BotResponse)
  : BotResponse :=
  {| disposition := disposition r; text := text r;
     confidence := confidence r; audioBytes := Some bytes;
     endSession := endSession r |}.

Definition withEndSession (end_ : bool) (r : BotResponse) : BotResponse :=
  {| disposition := disposition r; text := text r;
     confidence := confidence r; audioBytes := audioBytes r;
     endSession := Some end_ |}.

(** *** bot-service.ts: the Direct Line conversation *)

(** The fields of an activity the gateway reads: [a.id], [a.from?.id] and
    [a.text]. *)
Record Activity := mkActivity {
  act_id : string;
  act_from : option string;
  act_text : option string
}.

(** What one [botSvc.getActivities()] comes back with. *)
Inductive Fetch :=
| Fetched (activities : list Activity)
| FetchFailed.

(** The conversation as the gateway meets it: the texts it has posted, and
    the answers its next fetches will get ([Pending] when they run out). *)
Record DirectLine := mkDirectLine {
  posts : list string;
  feed : list Fetch
}.

(** [class BotResource], with the [conversationId] of its [BotService]. *)
Record BotResource := mkBotResource {
  conversationId : string;
  seenActivityIds : gset string
}.

Definition new_BotResource : BotResource :=
  {| conversationId := ""; seenActivityIds := ∅ |}.

(** [!this.seenActivityIds.has(a.id) && a.from?.id !== 'user' && a.text] *)
Definition qualifies (seen : gset string) (a : Activity) : bool :=
  negb (bool_decide (act_id a ∈ seen))
  && negb (bool_decide (act_from a = Some "user"))
  && truthy_text (act_text a).

(** The [for (const a of acts)] loop: the text found, empty if none, and
    the seen identifiers. *)
Fixpoint scan (seen : gset string) (acts : list Activity)
  : string * gset string :=
  match acts with
  | [] => ("", seen)
  | a :: rest =>
      if qualifies seen a then
        (default "" (act_text a), {[act_id a]} ∪ seen)      (* break *)
      else scan seen rest
  end.

(** The [while (!reply)] loop: one fetch and one scan per round. *)
Fixpoint poll (seen : gset string) (fetches : list Fetch)
  : Promise string * gset string * list Fetch :=
  match fetches with
  | [] => (Pending, seen, [])
  | FetchFailed :: rest => (Rejected, seen, rest)
  | Fetched acts :: rest =>
      let '(reply, seen') := scan seen acts in
      if truthy_string reply then (Resolved reply, seen', rest)
      else poll seen' rest
  end.

(** The end of both gateway methods: synthesize, then build the response. *)
Definition speak (speakTextAsync : string -> Synthesis) (reply : string)
  : Promise BotResponse :=
  match getAudioBytes speakTextAsync reply with
  | Resolved audio =>
      Resolved (withAudioBytes audio
                  (withConfidence 1%Q (new_BotResponse match_ reply)))
  | Rejected => Rejected
  | Pending => Pending
  end.

(** [BotResource.getInitialResponse]; [started] is what
    [botSvc.startConversation] obtains, [None] if it fails. *)
Definition getInitialResponse (speakTextAsync : string -> Synthesis)
    (started : option string) (bot : BotResource) (line : DirectLine)
  : Promise BotResponse * BotResource * DirectLine :=
  match started with
  | None => (Rejected, bot, line)
  | Some conversation =>
      let bot := {| conversationId := conversation;
                    seenActivityIds := seenActivityIds bot |} in
      match feed line with
      | [] => (Pending, bot, line)
      | FetchFailed :: rest =>
          (Rejected, bot, {| posts := posts line; feed := rest |})
      | Fetched existing :: rest =>
          let seen :=
            foldl (fun seen a => {[act_id a]} ∪ seen)
              (seenActivityIds bot) existing in
          let '(welcome, seen', rest') := poll seen rest in
          let bot := {| conversationId := conversation;
                        seenActivityIds := seen' |} in
          let line := {| posts := posts line; feed := rest' |} in
          match welcome with
          | Resolved welcome => (speak speakTextAsync welcome, bot, line)
          | Rejected => (Rejected, bot, line)
          | Pending => (Pending, bot, line)
          end
      end
  end.

(** [BotResource.getBotResponse]; [posted] tells whether
    [botSvc.postMessage] got through. *)
Definition getBotResponse (speakTextAsync : string -> Synthesis)
    (posted : bool) (userInput : string)
    (bot : BotResource) (line : DirectLine)
  : Promise BotResponse * BotResource * DirectLine :=
  if posted then
    let '(reply, seen', rest') := poll (seenActivityIds bot) (feed line) in
    let bot := {| conversationId := conversationId bot;
                  seenActivityIds := seen' |} in
    let line := {| posts := posts line ++ [userInput]; feed := rest' |} in
    match reply with
    | Resolved reply => (speak speakTextAsync reply, bot, line)
    | Rejected => (Rejected, bot, line)
    | Pending => (Pending, bot, line)
    end
  else (Rejected, bot, line).

(** The activities a list of fetches delivers. *)
Fixpoint fetched (fetches : list Fetch) : list Activity :=
  match fetches with
  | [] => []
  | Fetched acts :: rest => (acts ++ fetched rest)%list
  | FetchFailed :: rest => fetched rest
  end.

End Services.

(** *** A conversation to exercise the gateway on *)

Definition conversation_update : Services.Activity :=
  {| Services.act_id := "A0"; Services.act_from := Some "bot";
     Services.act_text := None |}.

Definition bot_welcome : Services.Activity :=
  {| Services.act_id := "A1"; Services.act_from := Some "bot";
     Services.act_text := Some "Welcome" |}.

Definition user_hello : Services.Activity :=
  {| Services.act_id := "A2"; Services.act_from := Some "user";
     Services.act_text := Some "hello" |}.

Definition bot_answer : Services.Activity :=
  {| Services.act_id := "A3"; Services.act_from := Some "bot";
     Services.act_text := Some "How can I help?" |}.

Definition bot_followup : Services.Activity :=
  {| Services.act_id := "A4"; Services.act_from := Some "bot";
     Services.act_text := Some "Are you there?" |}.

(** A synthesizer that always succeeds, and one that always fails. *)
Definition example_voice (text : string) : Services.Synthesis :=
  Services.SynthesisResult None [Byte.x01; Byte.x02].

Definition broken_voice (text : string) : Services.Synthesis :=
  Services.SynthesisResult (Some "quota exceeded") [].

(* ===================================================================== *)
(** ** The plain audio server (websocket/server.ts) *)
(* ===================================================================== *)

Module Server.

(** What [basicAuth(req)] yields when the request carries credentials. *)
Record Credentials := mkCredentials {
  name : string;
  pass : string
}.

(** [process.env.BASIC_USER] and [process.env.BASIC_PASS]. *)
Record Env := mkEnv {
  BASIC_USER : option string;
  BASIC_PASS : option string
}.

(** A call on the connection's socket: [ws.send(data)] with the value it was
    given, or [ws.close(code, reason)]. *)
Inductive SocketCall :=
| Send (data : option Uint8Array)
| Close (code : option Z) (reason : option string).

(** The gateway call a [handleTranscript] is waiting on. *)
Inductive Turn :=
| Greeting                      (* bot.getInitialResponse() *)
| Answer (text : string).       (* bot.getBotResponse(transcript.text) *)

Global Instance Turn_eq_dec : EqDecision Turn.
Proof. solve_decision. Defined.

(** One connection: whether its listeners were attached, the closure
    variable [isFirstTurn], and what it did to its collaborators. *)
Record Connection := mkConnection {
  wired : bool;
  isFirstTurn : bool;
  calls : list SocketCall;        (* on the socket, in order *)
  heard : list Uint8Array;        (* handed to asr.processAudio *)
  asked : list Turn;              (* asked of the bot, in order *)
  waiting : list Turn             (* handleTranscript calls at their await *)
}.

(** The test that opens [onConnection]. *)
Definition authorized (env : Env) (creds : option Credentials) : bool :=
  match creds with
  | None => false
  | Some c =>
      bool_decide (Some (name c) = BASIC_USER env)
      && bool_decide (Some (pass c) = BASIC_PASS env)
  end.

(** [onConnection(ws, req)] up to the end of its synchronous part. *)
Definition onConnection (env : Env) (creds : option Credentials)
  : Connection :=
  if authorized env creds then
    {| wired := true; isFirstTurn := true; calls := []; heard := [];
       asked := []; waiting := [] |}
  else
    {| wired := false; isFirstTurn := true;
       calls := [Close (Some 1008) (Some "Unauthorized")]; heard := [];
       asked := []; waiting := [] |}.

(** What the event loop can deliver to a connection. *)
Inductive Event :=
| Message (msg : Uint8Array)                       (* ws 'message' *)
| AsrError                                         (* asr 'error' *)
| Transcript (text : string)                       (* asr 'final-transcript' *)
| Settled (turn : Turn) (outcome : option BotResponse)
                                                   (* the awaited call *)
| SocketClose.                                     (* ws 'close' *)

Fixpoint remove_first (t : Turn) (l : list Turn) : list Turn :=
  match l with
  | [] => []
  | t' :: l' => if decide (t = t') then l' else t' :: remove_first t l'
  end.

(** [handleTranscript] from its [await] on: the [try] body after the call
    resolved, or the [catch] after it rejected. *)
Definition resume (turn : Turn) (outcome : option BotResponse)
    (c : Connection) : Connection :=
  match outcome with
  | Some botResp =>
      {| wired := wired c;
         isFirstTurn :=
           match turn with Greeting => false | Answer _ => isFirstTurn c end;
         calls :=
           calls c ++ [Send (audioBytes botResp)] ++
           (if truthy_flag (endSession botResp) then [Close None None]
            else []);
         heard := heard c; asked := asked c;
         waiting := remove_first turn (waiting c) |}
  | None =>
      {| wired := wired c; isFirstTurn := isFirstTurn c;
         calls := calls c ++ [Close (Some 1011) (Some "Internal error")];
         heard := heard c; asked := asked c;
         waiting := remove_first turn (waiting c) |}
  end.

(** One delivery.  A connection that was refused has no listeners. *)
Definition step (c : Connection) (e : Event) : Connection :=
  if wired c then
    match e with
    | Message msg =>
        {| wired := wired c; isFirstTurn := isFirstTurn c;
           calls := calls c; heard := heard c ++ [msg];
           asked := asked c; waiting := waiting c |}
    | AsrError =>
        {| wired := wired c; isFirstTurn := isFirstTurn c;
           calls := calls c ++ [Close (Some 1011) (Some "ASR error")];
           heard := heard c; asked := asked c; waiting := waiting c |}
    | Transcript text =>
        let turn := if isFirstTurn c then Greeting else Answer text in
        {| wired := wired c; isFirstTurn := isFirstTurn c;
           calls := calls c; heard := heard c;
           asked := asked c ++ [turn]; waiting := waiting c ++ [turn] |}
    | Settled turn outcome =>
        if bool_decide (turn ∈ waiting c) then resume turn outcome c else c
    | SocketClose => c
    end
  else c.

Definition run (c : Connection) (es : list Event) : Connection :=
  foldl step c es.

(** The transcripts among the events, in order. *)
Fixpoint transcripts (es : list Event) : list string :=
  match es with
  | [] => []
  | Transcript text :: rest => text :: transcripts rest
  | _ :: rest => transcripts rest
  end.

(** The greeting request resolves somewhere in the run. *)
Definition greeting_resolves (e : Event) : bool :=
  match e with Settled Greeting (Some _) => true | _ => false end.

End Server.

(* ===================================================================== *)
(** ** Further vocabulary: what the peer delivers *)
(* ===================================================================== *)

(** The deliveries that come from the socket: text, audio, close. *)
Definition from_socket (e : Event) : bool :=
  match e with
  | TextMessage _ | BinaryMessage _ | SocketClosed => true
  | _ => false
  end.

(** The envelopes handed to handlers so far carry strictly increasing
    sequence numbers, none above the inbound counter, and the session's
    identifier. *)
Definition handled_in_order (s : Session) : Prop :=
  StronglySorted Z.lt (cm_seq <$> handled s) /\
  Forall (fun m => cm_seq m <= lastClientSequenceNumber s /\
                   cm_id m = clientSessionId s) (handled s).

(* ===================================================================== *)
(** ** Reasoning about methods *)
(* ===================================================================== *)

Ltac munfold :=
  unfold after, returns, bind, this, assign, ret, raise, when, when_some,
    try_catch, ws_send_, ws_close_ in *.

(** A relation between the state before and the state after that holds
    across every method built from the combinators above. *)
Section Lift.
Context (R : Session -> Session -> Prop) `{!PreOrder R}.

Lemma keeps_ret {A} (a : A) : keeps R (ret a).
Proof. intros s. munfold. simpl. reflexivity. Qed.

Lemma keeps_raise {A} : keeps R (@raise A).
Proof. intros s. munfold. simpl. reflexivity. Qed.

Lemma keeps_this : keeps R this.
Proof. intros s. munfold. simpl. reflexivity. Qed.

Lemma keeps_bind {A B} (m : M A) (k : A -> M B) :
  keeps R m -> (forall a, keeps R (k a)) -> keeps R (bind m k).
Proof.
  intros Hm Hk s. specialize (Hm s). unfold after, bind in *.
  destruct (m s) as [[a|] s1]; simpl in *; [|exact Hm].
  etransitivity; [exact Hm|]. apply (Hk a s1).
Qed.

Lemma keeps_when (b : bool) (m : M unit) : keeps R m -> keeps R (when b m).
Proof. intros Hm. destruct b; simpl; [exact Hm | apply keeps_ret]. Qed.

Lemma keeps_when_some {A} (o : option A) (m : A -> M unit) :
  (forall a, keeps R (m a)) -> keeps R (when_some o m).
Proof. intros Hm. destruct o; simpl; [apply Hm | apply keeps_ret]. Qed.

Lemma keeps_try_catch (m : M unit) : keeps R m -> keeps R (try_catch m).
Proof. intros Hm s. apply (Hm s). Qed.

Lemma keeps_assign (f : Session -> Session) :
  (forall s, R s (f s)) -> keeps R (assign f).
Proof. intros Hf s. apply Hf. Qed.

Lemma keeps_foldl {E} (f : Session -> E -> Session) :
  (forall s e, R s (f s e)) -> forall es s, R s (foldl f s es).
Proof.
  intros Hf es. induction es as [|e es IH]; intros s; simpl.
  - reflexivity.
  - etransitivity; [apply (Hf s e) | apply IH].
Qed.
End Lift.

(** One structural step of a [keeps] goal. *)
Ltac kapply lem := apply lem; try typeclasses eauto.

Ltac keeps_step :=
  lazymatch goal with
  | |- keeps _ (bind _ _) => kapply keeps_bind; [|intros ?]
  | |- keeps _ (ret _) => kapply keeps_ret
  | |- keeps _ raise => kapply keeps_raise
  | |- keeps _ this => kapply keeps_this
  | |- keeps _ (when _ _) => kapply keeps_when
  | |- keeps _ (when_some _ _) => kapply keeps_when_some; intros ?
  | |- keeps _ (try_catch _) => kapply keeps_try_catch
  | |- keeps _ (if ?b then _ else _) => destruct b
  | |- keeps _ (match ?o with Some _ => _ | None => _ end) => destruct o
  end.

Create HintDb session discriminated.

#[global] Hint Unfold close setConversationId setInputVariables
  setSelectedMedia setIsAudioPlaying sendBargeIn sendTurnResponse
  sendDisconnect sendClosed checkIfBotExists ask_then onStartReply
  processBotStart onSpeechReply onSpeechError onFinalTranscript
  processBinaryMessage onDigitsReply onDigitsError onFinalDigits processDTMF
  handleMessage run_continuation ws_send_ : session.

(* ===================================================================== *)
(** ** Shutdown *)
(* ===================================================================== *)

Lemma close_when_closed (s : Session) :
  closed s = true -> close s = (Return tt, s).
Proof. intros H. unfold close. munfold. rewrite H. reflexivity. Qed.

Lemma close_when_open (s : Session) :
  closed s = false ->
  close s = (Return tt, set_closed true (set_ws (snd (ws_close (ws s))) s)).
Proof. intros H. unfold close. munfold. rewrite H. reflexivity. Qed.

(** C8. [close()] is idempotent.  It always returns normally, also when the
    socket's own close throws; it leaves the session closed; a second call
    changes nothing at all; and the socket's close is attempted once if the
    session was open and not at all if it was already closed. *)
Theorem close_idempotent (s : Session) :
  fst (close s) = Return tt /\
  closed (after close s) = true /\
  close (after close s) = (Return tt, after close s) /\
  closeCalls (ws (after close (after close s))) =
    closeCalls (ws (after close s)) /\
  closeCalls (ws (after close s)) =
    (if closed s then closeCalls (ws s) else S (closeCalls (ws s))).
Proof.
  destruct (closed s) eqn:Hc.
  - rewrite (close_when_closed s Hc). unfold after.
    rewrite (close_when_closed s Hc). simpl.
    rewrite (close_when_closed s Hc). auto.
  - unfold after. rewrite (close_when_open s Hc). simpl.
    rewrite close_when_closed by reflexivity. simpl. auto.
Qed.

(* ===================================================================== *)
(** ** Stamping of outbound envelopes *)
(* ===================================================================== *)

Lemma createMessage_eq (type : string) (parameters : Parameters) (s : Session) :
  createMessage type parameters s =
    (Return {| sm_id := clientSessionId s;
               sm_version := "2";
               sm_seq := lastServerSequenceNumber s + 1;
               sm_clientseq := lastClientSequenceNumber s;
               sm_type := type;
               sm_parameters := parameters |},
     set_lastServerSequenceNumber (lastServerSequenceNumber s + 1) s).
Proof. reflexivity. Qed.



Lemma send_created (type : string) (parameters : Parameters) (s : Session) :
  loggable (stamped s type parameters) = true ->
  (message <- createMessage type parameters ;; send message) s =
    (Return tt, emit type parameters s).
Proof.
  intros Hl. unfold bind at 1. rewrite createMessage_eq.
  unfold send. fold (stamped s type parameters). rewrite Hl. reflexivity.
Qed.

Lemma sendBargeIn_eq (s : Session) :
  sendBargeIn s =
    (Return tt, emit "event" (EventParameters [EventEntityBargeIn]) s).
Proof. apply send_created. reflexivity. Qed.

Lemma sendTurnResponse_eq d t c (s : Session) :
  sendTurnResponse d t c s =
    (Return tt,
     emit "event" (EventParameters [EventEntityBotTurnResponse d t c]) s).
Proof. apply send_created. reflexivity. Qed.

Lemma sendClosed_eq (s : Session) :
  sendClosed s = (Return tt, emit "closed" EmptyParameters s).
Proof. apply send_created. reflexivity. Qed.

Lemma sendDisconnect_eq reason info vars (s : Session) :
  sendDisconnect reason info vars s =
    (Return tt,
     emit "disconnect" (DisconnectParameters reason info vars)
       (set_disconnecting true s)).
Proof.
  unfold sendDisconnect. unfold bind at 1. unfold assign.
  apply send_created. reflexivity.
Qed.

(* ===================================================================== *)
(** ** Outbound audio chunking *)
(* ===================================================================== *)

Lemma ws_sends_nil (w : WebSocket) : ws_sends w [] = w.
Proof. destruct w. unfold ws_sends. simpl. by rewrite app_nil_r. Qed.

Lemma ws_sends_cons (w : WebSocket) (f : Frame) (fs : list Frame) :
  ws_sends (ws_send w f) fs = ws_sends w (f :: fs).
Proof. unfold ws_sends, ws_send. simpl. by rewrite <- app_assoc. Qed.

Lemma sendAudio_loop_step (w : WebSocket) (bytes : Uint8Array) (pos : Z) :
  sendAudio_loop w bytes pos =
    if decide (pos < Z.of_nat (length bytes)) then
      sendAudio_loop
        (ws_send w (BinaryFrame
           (slice bytes pos (pos + MAXIMUM_BINARY_MESSAGE_SIZE))))
        bytes (pos + MAXIMUM_BINARY_MESSAGE_SIZE)
    else w.
Proof.
  rewrite (sendAudio_loop_equation_1 w bytes pos).
  destruct (decide _); reflexivity.
Qed.

Lemma slice_length (bytes : Uint8Array) (pos : Z) :
  0 <= pos ->
  Z.of_nat (length (slice bytes pos (pos + MAXIMUM_BINARY_MESSAGE_SIZE))) =
    Z.min MAXIMUM_BINARY_MESSAGE_SIZE (Z.max 0 (Z.of_nat (length bytes) - pos)).
Proof.
  intros Hpos. unfold slice. rewrite length_take, length_drop.
  unfold MAXIMUM_BINARY_MESSAGE_SIZE. lia.
Qed.

Lemma slice_drop (bytes : Uint8Array) (pos : Z) :
  0 <= pos ->
  (slice bytes pos (pos + MAXIMUM_BINARY_MESSAGE_SIZE) ++
    drop (Z.to_nat (pos + MAXIMUM_BINARY_MESSAGE_SIZE)) bytes)%list =
  drop (Z.to_nat pos) bytes.
Proof.
  intros Hpos. unfold slice.
  replace (Z.to_nat (pos + MAXIMUM_BINARY_MESSAGE_SIZE))
    with (Z.to_nat pos + Z.to_nat (pos + MAXIMUM_BINARY_MESSAGE_SIZE - pos))%nat
    by (unfold MAXIMUM_BINARY_MESSAGE_SIZE; lia).
  rewrite <- drop_drop. apply take_drop.
Qed.

Lemma ceil_next (len pos : Z) :
  pos < len ->
  Z.max 0 ((len - pos + MAXIMUM_BINARY_MESSAGE_SIZE - 1)
           / MAXIMUM_BINARY_MESSAGE_SIZE) =
  1 + Z.max 0 ((len - (pos + MAXIMUM_BINARY_MESSAGE_SIZE)
                + MAXIMUM_BINARY_MESSAGE_SIZE - 1)
               / MAXIMUM_BINARY_MESSAGE_SIZE).
Proof.
  intros Hlt. unfold MAXIMUM_BINARY_MESSAGE_SIZE.
  replace (len - pos + 64000 - 1) with ((len - pos - 1) + 1 * 64000) by lia.
  rewrite Z.div_add by lia.
  replace (len - (pos + 64000) + 64000 - 1) with (len - pos - 1) by lia.
  assert (0 <= (len - pos - 1) / 64000) by (apply Z.div_pos; lia). lia.
Qed.

Lemma ceil_done (len pos : Z) :
  len <= pos ->
  Z.max 0 ((len - pos + MAXIMUM_BINARY_MESSAGE_SIZE - 1)
           / MAXIMUM_BINARY_MESSAGE_SIZE) = 0.
Proof.
  intros Hle. unfold MAXIMUM_BINARY_MESSAGE_SIZE.
  assert ((len - pos + 64000 - 1) / 64000 < 1)
    by (apply Z.div_lt_upper_bound; lia).
  lia.
Qed.

(** The loop of [sendAudio], started at [pos], sends the chunks of the rest
    of [bytes], the same ones whatever the socket sent before. *)
Lemma sendAudio_loop_chunks (n : nat) :
  forall (bytes : Uint8Array) (pos : Z),
    0 <= pos ->
    (Z.to_nat (Z.of_nat (length bytes) - pos) <= n)%nat ->
    exists chunks,
      chunked bytes pos chunks /\
      forall w, sendAudio_loop w bytes pos =
                ws_sends w (BinaryFrame <$> chunks).
Proof.
  induction n as [|n IH]; intros bytes pos Hpos Hn.
  - exists []. split.
    + unfold chunked. rewrite ceil_done by lia. simpl.
      rewrite drop_ge by lia. repeat split; [constructor | intros i c Hi; done].
    + intros w. rewrite sendAudio_loop_step.
      destruct (decide _); [lia|]. simpl. by rewrite ws_sends_nil.
  - destruct (decide (pos < Z.of_nat (length bytes))) as [Hlt|Hge].
    + destruct (IH bytes (pos + MAXIMUM_BINARY_MESSAGE_SIZE))
        as (chunks & (Hcat & Hlen & Hmax & Hfull) & Hloop).
      { unfold MAXIMUM_BINARY_MESSAGE_SIZE. lia. }
      { unfold MAXIMUM_BINARY_MESSAGE_SIZE. lia. }
      set (c0 := slice bytes pos (pos + MAXIMUM_BINARY_MESSAGE_SIZE)).
      exists (c0 :: chunks). split.
      * unfold chunked. repeat split.
        -- simpl. rewrite Hcat. by apply slice_drop.
        -- rewrite (ceil_next _ _ Hlt). rewrite <- Hlen. simpl length. lia.
        -- constructor; [|exact Hmax].
           unfold c0. rewrite slice_length by lia. lia.
        -- intros [|i] c Hi Hsucc; simpl in *.
           ++ injection Hi as <-. unfold c0. rewrite slice_length by lia.
              assert (Hne : 0 < Z.of_nat (length chunks)) by lia.
              rewrite Hlen in Hne.
              destruct (decide (Z.of_nat (length bytes)
                                <= pos + MAXIMUM_BINARY_MESSAGE_SIZE)) as [Hd|Hd].
              ** rewrite (ceil_done _ _ Hd) in Hne. lia.
              ** lia.
           ++ apply (Hfull i c Hi). lia.
      * intros w. rewrite sendAudio_loop_step.
        destruct (decide _); [|lia]. rewrite Hloop. fold c0.
        by rewrite ws_sends_cons.
    + exists []. split.
      * unfold chunked. rewrite ceil_done by lia. simpl.
        rewrite drop_ge by lia.
        repeat split; [constructor | intros i c Hi; done].
      * intros w. rewrite sendAudio_loop_step.
        destruct (decide _); [lia|]. simpl. by rewrite ws_sends_nil.
Qed.

Lemma sendAudio_small (bytes : Uint8Array) (s : Session) :
  Z.of_nat (length bytes) <= MAXIMUM_BINARY_MESSAGE_SIZE ->
  sendAudio bytes s =
    (Return tt, set_ws (ws_sends (ws s) [BinaryFrame bytes]) s).
Proof. intros H. unfold sendAudio. destruct (decide _); [reflexivity | lia]. Qed.

Lemma sendAudio_large (bytes : Uint8Array) (s : Session) :
  MAXIMUM_BINARY_MESSAGE_SIZE < Z.of_nat (length bytes) ->
  sendAudio bytes s =
    (Return tt, set_ws (sendAudio_loop (ws s) bytes 0) s).
Proof. intros H. unfold sendAudio. destruct (decide _); [lia | reflexivity]. Qed.

(** What [sendAudio] does, for every payload. *)
Lemma sendAudio_sends (bytes : Uint8Array) :
  exists chunks : list Uint8Array,
    (forall s, sendAudio bytes s =
       (Return tt, set_ws (ws_sends (ws s) (BinaryFrame <$> chunks)) s)) /\
    concat chunks = bytes /\
    Forall (fun c => Z.of_nat (length c) <= MAXIMUM_BINARY_MESSAGE_SIZE)
      chunks /\
    (forall (i : nat) c, chunks !! i = Some c -> (S i < length chunks)%nat ->
       Z.of_nat (length c) = MAXIMUM_BINARY_MESSAGE_SIZE) /\
    (Z.of_nat (length bytes) <= MAXIMUM_BINARY_MESSAGE_SIZE ->
       chunks = [bytes]) /\
    (MAXIMUM_BINARY_MESSAGE_SIZE < Z.of_nat (length bytes) ->
       Z.of_nat (length chunks) =
         (Z.of_nat (length bytes) + MAXIMUM_BINARY_MESSAGE_SIZE - 1)
         / MAXIMUM_BINARY_MESSAGE_SIZE).
Proof.
  destruct (decide (Z.of_nat (length bytes) <= MAXIMUM_BINARY_MESSAGE_SIZE))
    as [Hsmall|Hlarge].
  - exists [bytes]. split_and!.
    + intros s. by apply sendAudio_small.
    + simpl. by rewrite app_nil_r.
    + by repeat constructor.
    + intros i c Hi Hsucc. simpl in Hsucc. lia.
    + done.
    + intros Hbig. lia.
  - destruct (sendAudio_loop_chunks
                (Z.to_nat (Z.of_nat (length bytes) - 0)) bytes 0)
      as (chunks & (Hcat & Hlen & Hmax & Hfull) & Hloop); [lia | lia |].
    exists chunks. split_and!.
    + intros s. rewrite sendAudio_large by lia. by rewrite Hloop.
    + exact Hcat.
    + exact Hmax.
    + exact Hfull.
    + intros Hsmall. lia.
    + intros _. rewrite Hlen. rewrite Z.sub_0_r.
      assert (0 <= (Z.of_nat (length bytes) + MAXIMUM_BINARY_MESSAGE_SIZE - 1)
                   / MAXIMUM_BINARY_MESSAGE_SIZE)
        by (apply Z.div_pos; unfold MAXIMUM_BINARY_MESSAGE_SIZE; lia).
      lia.
Qed.

(** C5. [sendAudio(bytes)] returns normally and sends [bytes] as binary
    frames, in order, that concatenate back to [bytes]; no frame exceeds
    64000 bytes and every frame that is not the last has exactly 64000.  A
    payload of at most 64000 bytes goes out as the one frame [bytes]; a larger
    one goes out as ceil(length / 64000) frames; a payload of 150000 bytes
    goes out as frames of 64000, 64000 and 22000 bytes. *)
Theorem sendAudio_chunks (bytes : Uint8Array) :
  exists chunks : list Uint8Array,
    (forall s, sendAudio bytes s =
       (Return tt, set_ws (ws_sends (ws s) (BinaryFrame <$> chunks)) s)) /\
    concat chunks = bytes /\
    Forall (fun c => Z.of_nat (length c) <= MAXIMUM_BINARY_MESSAGE_SIZE)
      chunks /\
    (forall (i : nat) c, chunks !! i = Some c -> (S i < length chunks)%nat ->
       Z.of_nat (length c) = MAXIMUM_BINARY_MESSAGE_SIZE) /\
    (Z.of_nat (length bytes) <= MAXIMUM_BINARY_MESSAGE_SIZE ->
       chunks = [bytes]) /\
    (MAXIMUM_BINARY_MESSAGE_SIZE < Z.of_nat (length bytes) ->
       Z.of_nat (length chunks) =
         (Z.of_nat (length bytes) + MAXIMUM_BINARY_MESSAGE_SIZE - 1)
         / MAXIMUM_BINARY_MESSAGE_SIZE) /\
    (Z.of_nat (length bytes) = 150000 ->
       (fun c => Z.of_nat (length c)) <$> chunks = [64000; 64000; 22000]).
Proof.
  destruct (sendAudio_sends bytes)
    as (chunks & Hsend & Hcat & Hmax & Hfull & Hsmall & Hlarge).
  exists chunks. split_and!; try assumption.
  intros H150.
  assert (Hcount : Z.of_nat (length chunks) = 3).
  { rewrite Hlarge by (unfold MAXIMUM_BINARY_MESSAGE_SIZE; lia).
    rewrite H150. reflexivity. }
  destruct chunks as [|c0 [|c1 [|c2 [|c3 chunks]]]];
    simpl length in Hcount; try lia.
  pose proof (Hfull 0%nat c0 eq_refl) as H0.
  pose proof (Hfull 1%nat c1 eq_refl) as H1.
  simpl in H0, H1.
  assert (Hsum : length (concat [c0; c1; c2]) = length bytes)
    by (by rewrite Hcat).
  simpl in Hsum. rewrite !length_app in Hsum. simpl in Hsum.
  unfold MAXIMUM_BINARY_MESSAGE_SIZE in *. simpl.
  repeat f_equal; lia.
Qed.

(** The claim at a 150000-byte payload sent on a fresh session. *)
Lemma sendAudio_chunks_witness :
  exists chunks : list Uint8Array,
    after (sendAudio (repeat Byte.x00 (Z.to_nat 150000)))
      (new_Session ∅ {| sent := []; closeCalls := 0; closeThrows := false |}
         "session" "/ws")
    = set_ws {| sent := BinaryFrame <$> chunks; closeCalls := 0;
                closeThrows := false |}
        (new_Session ∅ {| sent := []; closeCalls := 0; closeThrows := false |}
           "session" "/ws") /\
    (fun c => Z.of_nat (length c)) <$> chunks = [64000; 64000; 22000].
Proof.
  destruct (sendAudio_chunks (repeat Byte.x00 (Z.to_nat 150000)))
    as (chunks & Hsend & _ & _ & _ & _ & _ & H150).
  exists chunks. split.
  - unfold after. rewrite Hsend. reflexivity.
  - apply H150. vm_compute. reflexivity.
Defined.

Lemma sendAudio_frames (bytes : Uint8Array) (s : Session) :
  sendAudio bytes s =
    (Return tt, set_ws (ws_sends (ws s) (audio_frames bytes)) s).
Proof.
  destruct (sendAudio_sends bytes) as (chunks & Hsend & _).
  unfold audio_frames, after. rewrite !Hsend. reflexivity.
Qed.

Lemma audio_frames_binary (bytes : Uint8Array) :
  exists chunks, audio_frames bytes = BinaryFrame <$> chunks /\
                 concat chunks = bytes.
Proof.
  destruct (sendAudio_sends bytes) as (chunks & Hsend & Hcat & _).
  exists chunks. split; [|exact Hcat].
  unfold audio_frames, after. rewrite Hsend. reflexivity.
Qed.

(* ===================================================================== *)
(** ** Emission of a turn *)
(* ===================================================================== *)

Arguments audio_frames : simpl never.

(** The three stages shared by the two reply callbacks, and whatever the
    callback does next. *)
Lemma turn_stages_sent (response : BotResponse) (s : Session) :
  exists s',
    sent (ws s') =
      (sent (ws s) ++ turn_event s response ++ turn_audio response
         ++ turn_disconnect s response)%list /\
    forall k : M unit,
      (when (truthy_string (text response))
         (sendTurnResponse (disposition response) (text response)
            (confidence response)) ;;
       when_some (audioBytes response) sendAudio ;;
       when (truthy_flag (endSession response))
         (sendDisconnect "completed" "" ∅) ;;
       k) s = k s'.
Proof.
  unfold turn_event, turn_audio, turn_disconnect, after_turn_event.
  destruct response as [d t c a e]. simpl.
  unfold bind, when, when_some, ret.
  destruct (truthy_string t), a as [bytes|], (truthy_flag e);
    rewrite ?sendTurnResponse_eq, ?sendAudio_frames, ?sendDisconnect_eq;
    eexists; (split; [|intros k; reflexivity]); simpl;
    rewrite ?app_nil_r, <- ?app_assoc; reflexivity.
Qed.

Lemma bind_ext {A B} (m : M A) (k k' : A -> M B) (s : Session) :
  (forall a s', k a s' = k' a s') -> bind m k s = bind m k' s.
Proof. intros H. unfold bind. destruct (m s) as [[a|] s']; [apply H | done]. Qed.

Lemma bind_ret_unit (m : M unit) (s : Session) : (m ;; ret tt) s = m s.
Proof. unfold bind, ret. by destruct (m s) as [[[]|] s']. Qed.

Lemma onSpeechReply_sent (response : BotResponse) (s : Session) :
  returns (onSpeechReply response) s /\
  sent (ws (after (onSpeechReply response) s)) =
    (sent (ws s) ++ turn_event s response ++ turn_audio response
       ++ turn_disconnect s response)%list.
Proof.
  destruct (turn_stages_sent response s) as (s' & Hsent & Hrun).
  specialize (Hrun (ret tt)).
  unfold returns, after, onSpeechReply.
  assert (Heq : onSpeechReply response s = (Return tt, s')).
  { etransitivity; [|apply Hrun]. unfold onSpeechReply.
    apply bind_ext. intros _ s1. apply bind_ext. intros _ s2.
    symmetry. apply bind_ret_unit. }
  unfold onSpeechReply in Heq. rewrite Heq. simpl. eauto.
Qed.

Lemma onDigitsReply_sent (response : BotResponse) (s : Session) :
  returns (onDigitsReply response) s /\
  sent (ws (after (onDigitsReply response) s)) =
    (sent (ws s) ++ turn_event s response ++ turn_audio response
       ++ turn_disconnect s response)%list.
Proof.
  destruct (turn_stages_sent response s) as (s' & Hsent & Hrun).
  unfold returns, after, onDigitsReply. rewrite Hrun. simpl. eauto.
Qed.

(** C6. A bot reply that completes a turn, to a final transcript
    ([onSpeechReply]) or to final digits ([onDigitsReply]), appends to what the
    socket has sent, in this order and nothing else: the bot_turn_response
    event if the reply has text, then the binary frames of the audio if the
    reply has audio bytes (they concatenate to those bytes), then the
    disconnect with reason completed if endSession is set. *)
Theorem turn_emission_order (response : BotResponse) (s : Session) :
  (returns (onSpeechReply response) s /\
   sent (ws (after (onSpeechReply response) s)) =
     (sent (ws s) ++ turn_event s response ++ turn_audio response
        ++ turn_disconnect s response)%list) /\
  (returns (onDigitsReply response) s /\
   sent (ws (after (onDigitsReply response) s)) =
     (sent (ws s) ++ turn_event s response ++ turn_audio response
        ++ turn_disconnect s response)%list) /\
  match audioBytes response with
  | Some bytes =>
      exists chunks, turn_audio response = BinaryFrame <$> chunks /\
                     concat chunks = bytes
  | None => turn_audio response = []
  end.
Proof.
  split; [apply onSpeechReply_sent|]. split; [apply onDigitsReply_sent|].
  unfold turn_audio. destruct (audioBytes response) as [bytes|]; [|reflexivity].
  apply audio_frames_binary.
Qed.

(* ===================================================================== *)
(** ** Completions that arrive late *)
(* ===================================================================== *)

Lemma onSpeechError_guarded (s : Session) :
  isCapturingDTMF s = true -> onSpeechError s = (Return tt, s).
Proof. intros H. unfold onSpeechError. munfold. by rewrite H. Qed.

Lemma onFinalTranscript_guarded (t : string) (s : Session) :
  isCapturingDTMF s = true -> onFinalTranscript t s = (Return tt, s).
Proof. intros H. unfold onFinalTranscript. munfold. by rewrite H. Qed.

Lemma onSpeechError_unguarded (s : Session) :
  isCapturingDTMF s = false ->
  onSpeechError s =
    (Return tt,
     emit "disconnect"
       (DisconnectParameters "error" "Error during Speech Recognition." ∅)
       (set_disconnecting true s)).
Proof.
  intros H. unfold onSpeechError. unfold bind, this. rewrite H.
  apply sendDisconnect_eq.
Qed.

Lemma onDigitsError_eq (s : Session) :
  onDigitsError s =
    (Return tt,
     emit "disconnect"
       (DisconnectParameters "error" "Error during DTMF Capture." ∅)
       (set_disconnecting true s)).
Proof. apply sendDisconnect_eq. Qed.

(** C10. While [isCapturingDTMF] is true a report of a speech engine is
    ignored: the error listener and the final-transcript listener return at
    once and leave the whole session as it was, so no disconnect is sent, the
    bot gateway is not asked and nothing waits for a reply; the same holds
    when the event loop delivers the report of a dropped engine. *)
Theorem speech_reports_ignored_during_digits
    (s : Session) (transcript_text : string)
    (Hdtmf : isCapturingDTMF s = true) :
  onSpeechError s = (Return tt, s) /\
  onFinalTranscript transcript_text s = (Return tt, s) /\
  step s (SpeechError false) = s /\
  step s (FinalTranscript false transcript_text) = s.
Proof.
  split_and!.
  - by apply onSpeechError_guarded.
  - by apply onFinalTranscript_guarded.
  - simpl. unfold after. by rewrite onSpeechError_guarded.
  - simpl. unfold after. by rewrite onFinalTranscript_guarded.
Qed.

(** The claim on the example call once the caller has pressed a digit. *)
Lemma speech_reports_ignored_during_digits_witness :
  let s := run example_session
             [TextMessage (inbound 1 "open" "");
              BinaryMessage [Byte.x10];
              TextMessage (inbound 2 "dtmf" "5")] in
  isCapturingDTMF s = true /\
  onSpeechError s = (Return tt, s) /\
  onFinalTranscript "hello" s = (Return tt, s) /\
  step s (SpeechError false) = s /\
  step s (FinalTranscript false "hello") = s.
Proof.
  intros s. split; [vm_compute; reflexivity|].
  apply (speech_reports_ignored_during_digits s "hello").
  vm_compute. reflexivity.
Defined.

Lemma processBinaryMessage_inert (data : Uint8Array) (s : Session) :
  inert s = true -> processBinaryMessage data s = (Return tt, s).
Proof.
  unfold inert. intros H. unfold processBinaryMessage. munfold. by rewrite H.
Qed.

Lemma processDTMF_inert (digit : string) (s : Session) :
  inert s = true -> processDTMF digit s = (Return tt, s).
Proof. unfold inert. intros H. unfold processDTMF. munfold. by rewrite H. Qed.

Lemma ask_then_eq (r : BotRequest) (k : Continuation) (s : Session) :
  ask_then r k s =
    match selectedBot s with
    | Some bot =>
        (Return tt,
         set_pending (pending s ++ [k])
           (set_selectedBot (Some (bot_ask bot r)) s))
    | None => (Raise, s)
    end.
Proof.
  unfold ask_then. unfold bind at 1. unfold this.
  destruct (selectedBot s); reflexivity.
Qed.

Lemma onFinalTranscript_unguarded (t : string) (s : Session) :
  isCapturingDTMF s = false ->
  onFinalTranscript t s =
    match selectedBot s with
    | Some bot =>
        (Return tt,
         set_pending (pending s ++ [OnSpeechReply])
           (set_selectedBot (Some (bot_ask bot (GetBotResponse t))) s))
    | None => (Raise, s)
    end.
Proof.
  intros H. unfold onFinalTranscript. unfold bind at 1. unfold this.
  rewrite H. apply ask_then_eq.
Qed.

Lemma late_inert (s : Session) :
  closed s = true \/ disconnecting s = true -> inert s = true.
Proof.
  unfold inert. intros [-> | ->]; [by rewrite orb_true_r | done].
Qed.

(** C7, as stated, fails.  On the example call the bot is still working on
    the transcript when an envelope out of sequence makes the session send
    its error disconnect and set [disconnecting]; the socket stays open.
    When the reply resolves, the callback sends the event, the audio and a
    second disconnect all the same.  Capture results that arrive in that
    state are not discarded either: a final transcript and a final digit
    string are passed to the bot, and an error of the digit engine sends
    another disconnect. *)
Lemma late_reply_is_sent :
  disconnecting rejected_while_bot_thinks = true /\
  closed rejected_while_bot_thinks = false /\
  sent (ws (step rejected_while_bot_thinks
              (BotReply OnSpeechReply example_reply))) =
    (sent (ws rejected_while_bot_thinks) ++
     [TextFrame
        {| sm_id := "call-1"; sm_version := "2"; sm_seq := 3;
           sm_clientseq := 1; sm_type := "event";
           sm_parameters :=
             EventParameters
               [EventEntityBotTurnResponse match_ "Goodbye" None] |};
      BinaryFrame [Byte.x01; Byte.x02];
      TextFrame
        {| sm_id := "call-1"; sm_version := "2"; sm_seq := 4;
           sm_clientseq := 1; sm_type := "disconnect";
           sm_parameters := DisconnectParameters "completed" "" ∅ |}])%list /\
  selectedBot rejected_while_bot_thinks =
    Some {| requests := [GetInitialResponse; GetBotResponse "hello"] |} /\
  selectedBot (step rejected_while_bot_thinks (FinalTranscript false "late")) =
    Some {| requests := [GetInitialResponse; GetBotResponse "hello";
                         GetBotResponse "late"] |} /\
  selectedBot (step rejected_while_bot_thinks (FinalDigits false "42")) =
    Some {| requests := [GetInitialResponse; GetBotResponse "hello";
                         GetBotResponse "42"] |} /\
  sent (ws (step rejected_while_bot_thinks (DigitsError false))) =
    (sent (ws rejected_while_bot_thinks) ++
     [TextFrame
        {| sm_id := "call-1"; sm_version := "2"; sm_seq := 3;
           sm_clientseq := 1; sm_type := "disconnect";
           sm_parameters :=
             DisconnectParameters "error" "Error during DTMF Capture."
               ∅ |}])%list.
Proof. split_and!; vm_compute; reflexivity. Qed.

(** C7, amended.  [closed] and [disconnecting] are tested where input
    enters, not where completions arrive.  With either flag set,
    [processBinaryMessage] and [processDTMF] return without any effect, but
    no completion callback reads the flags, and each one does exactly what it
    does on a live session:
    - the reply callbacks of a speech turn and of a digit turn still hand the
      event (if the reply has text), the audio frames (if it has audio) and
      the disconnect with reason completed (if endSession is set) to the
      socket, in that order;
    - the final-digits listener still asks the bot and registers the reply
      callback, and the error listener of the digit engine still sends a
      disconnect with reason error;
    - the final-transcript listener still asks the bot and registers the
      reply callback, and the error listener of the speech engine still
      sends a disconnect with reason error, unless [isCapturingDTMF] is
      true: under that flag alone the two speech listeners return at once
      and leave the session untouched. *)
Theorem late_completions_pass_through
    (s : Session) (response : BotResponse)
    (transcript_text digits : string) (data : Uint8Array)
    (Hlate : closed s = true \/ disconnecting s = true) :
  (processBinaryMessage data s = (Return tt, s) /\
   processDTMF digits s = (Return tt, s)) /\
  (returns (onSpeechReply response) s /\
   sent (ws (after (onSpeechReply response) s)) =
     (sent (ws s) ++ turn_event s response ++ turn_audio response
        ++ turn_disconnect s response)%list) /\
  (returns (onDigitsReply response) s /\
   sent (ws (after (onDigitsReply response) s)) =
     (sent (ws s) ++ turn_event s response ++ turn_audio response
        ++ turn_disconnect s response)%list) /\
  onFinalDigits digits s =
    match selectedBot s with
    | Some bot =>
        (Return tt,
         set_pending (pending s ++ [OnDigitsReply])
           (set_selectedBot (Some (bot_ask bot (GetBotResponse digits))) s))
    | None => (Raise, s)
    end /\
  onDigitsError s =
    (Return tt,
     emit "disconnect"
       (DisconnectParameters "error" "Error during DTMF Capture." ∅)
       (set_disconnecting true s)) /\
  onFinalTranscript transcript_text s =
    (if isCapturingDTMF s then (Return tt, s)
     else
       match selectedBot s with
       | Some bot =>
           (Return tt,
            set_pending (pending s ++ [OnSpeechReply])
              (set_selectedBot
                 (Some (bot_ask bot (GetBotResponse transcript_text))) s))
       | None => (Raise, s)
       end) /\
  onSpeechError s =
    (if isCapturingDTMF s then (Return tt, s)
     else
       (Return tt,
        emit "disconnect"
          (DisconnectParameters "error" "Error during Speech Recognition." ∅)
          (set_disconnecting true s))).
Proof.
  pose proof (late_inert s Hlate) as Hinert.
  split; [split|].
  { by apply processBinaryMessage_inert. }
  { by apply processDTMF_inert. }
  split; [apply onSpeechReply_sent|].
  split; [apply onDigitsReply_sent|].
  split; [apply ask_then_eq|].
  split; [apply onDigitsError_eq|].
  destruct (isCapturingDTMF s) eqn:Hd.
  - split; [by apply onFinalTranscript_guarded | by apply onSpeechError_guarded].
  - split; [by apply onFinalTranscript_unguarded
           | by apply onSpeechError_unguarded].
Qed.

(** The amended claim on the example call after its error disconnect, the
    socket still open: audio is dropped, the late reply goes out and late
    digits reach the bot. *)
Lemma late_completions_pass_through_witness :
  disconnecting rejected_while_bot_thinks = true /\
  closed rejected_while_bot_thinks = false /\
  processBinaryMessage [Byte.x11] rejected_while_bot_thinks =
    (Return tt, rejected_while_bot_thinks) /\
  sent (ws (after (onSpeechReply example_reply) rejected_while_bot_thinks)) =
    (sent (ws rejected_while_bot_thinks)
       ++ turn_event rejected_while_bot_thinks example_reply
       ++ turn_audio example_reply
       ++ turn_disconnect rejected_while_bot_thinks example_reply)%list /\
  selectedBot (after (onFinalDigits "42") rejected_while_bot_thinks) =
    Some {| requests := [GetInitialResponse; GetBotResponse "hello";
                         GetBotResponse "42"] |}.
Proof.
  destruct (late_completions_pass_through rejected_while_bot_thinks
              example_reply "late" "42" [Byte.x11])
    as ((Hbin & _) & (_ & Hsent) & _ & Hdigits & _).
  { right. vm_compute. reflexivity. }
  split; [vm_compute; reflexivity|].
  split; [vm_compute; reflexivity|].
  split; [exact Hbin|].
  split; [exact Hsent|].
  unfold after. rewrite Hdigits. vm_compute. reflexivity.
Defined.

(* ===================================================================== *)
(** ** Playback suspends capture *)
(* ===================================================================== *)

Lemma processBinaryMessage_playing (data : Uint8Array) (s : Session) :
  isAudioPlaying s = true ->
  processBinaryMessage data s =
    (Return tt, if inert s || isCapturingDTMF s then s else drop_engines s).
Proof.
  intros Hplay. unfold processBinaryMessage, inert. munfold.
  destruct (disconnecting s || closed s
            || negb (bool_decide (is_Some (selectedBot s)))); [reflexivity|].
  simpl. destruct (isCapturingDTMF s); [reflexivity|].
  rewrite Hplay. reflexivity.
Qed.

Lemma processDTMF_playing (digit : string) (s : Session) :
  isAudioPlaying s = true ->
  processDTMF digit s =
    (Return tt, if inert s then s else drop_engines s).
Proof.
  intros Hplay. unfold processDTMF, inert. munfold.
  destruct (disconnecting s || closed s
            || negb (bool_decide (is_Some (selectedBot s)))); [reflexivity|].
  rewrite Hplay. reflexivity.
Qed.

(** C4, as stated, fails.  On the example call a digit capture is under way
    when playback starts; the next audio frame leaves at the
    [isCapturingDTMF] test, before the playback test, and the live digit
    engine stays where it is. *)
Lemma playback_keeps_digit_engine :
  isAudioPlaying playback_during_digits = true /\
  dtmf_live (dtmfService playback_during_digits) = true /\
  dtmfService (after (processBinaryMessage [Byte.x10]) playback_during_digits)
    = Some {| dtmf_state := Capturing; dtmf_digits := ["5"] |}.
Proof. vm_compute. auto. Qed.

(** C4, amended.  While [isAudioPlaying] is true neither an audio frame nor
    a digit reaches a capture engine.  [processDTMF] returns with the session
    untouched when the session is disconnecting, closed or without a bot, and
    otherwise sets both engine fields to null; [processBinaryMessage] does the
    same, and also returns with the session untouched when [isCapturingDTMF]
    is true. *)
Theorem playback_blocks_capture
    (s : Session) (data : Uint8Array) (digit : string)
    (Hplay : isAudioPlaying s = true) :
  processBinaryMessage data s =
    (Return tt, if inert s || isCapturingDTMF s then s else drop_engines s) /\
  processDTMF digit s =
    (Return tt, if inert s then s else drop_engines s).
Proof.
  split; [by apply processBinaryMessage_playing | by apply processDTMF_playing].
Qed.

(** The amended claim on the example call during playback. *)
Lemma playback_blocks_capture_witness :
  isAudioPlaying playback_during_digits = true /\
  processBinaryMessage [Byte.x10] playback_during_digits =
    (Return tt, playback_during_digits) /\
  processDTMF "6" playback_during_digits =
    (Return tt, drop_engines playback_during_digits).
Proof.
  split; [vm_compute; reflexivity|].
  destruct (playback_blocks_capture playback_during_digits [Byte.x10] "6")
    as [Hb Hd]; [vm_compute; reflexivity|].
  split; [rewrite Hb | rewrite Hd]; vm_compute; reflexivity.
Defined.

(* ===================================================================== *)
(** ** Relations that every method keeps *)
(* ===================================================================== *)

(** Relations that no write to the socket or to the outbound counter can
    break are kept by the sending methods. *)
Section Sends.
Context (R : Session -> Session -> Prop) `{!PreOrder R}.
Hypothesis R_ws : forall s w, R s (set_ws w s).
Hypothesis R_seq : forall s v, R s (set_lastServerSequenceNumber v s).

Lemma keeps_sendAudio (bytes : Uint8Array) : keeps R (sendAudio bytes).
Proof. intros s. unfold after. rewrite sendAudio_frames. apply R_ws. Qed.

Lemma keeps_createMessage type parameters :
  keeps R (createMessage type parameters).
Proof. intros s. unfold after. rewrite createMessage_eq. apply R_seq. Qed.

Lemma keeps_send message : keeps R (send message).
Proof.
  intros s. unfold after, send.
  destruct (loggable message); [apply R_ws | reflexivity].
Qed.

Lemma keeps_ws_close : keeps R ws_close_.
Proof. intros s. apply R_ws. Qed.
End Sends.

(** Decompose a method into its assignments and prove each with [leaf]. *)
Ltac keeps_auto leaf :=
  repeat first
    [ keeps_step
    | lazymatch goal with
      | |- keeps _ (assign _) => kapply keeps_assign; intros ?; leaf
      | |- keeps _ (sendAudio _) => kapply keeps_sendAudio; intros ? ?; leaf
      | |- keeps _ (createMessage _ _) =>
          kapply keeps_createMessage; intros ? ?; leaf
      | |- keeps _ (send _) => kapply keeps_send; intros ? ?; leaf
      | |- keeps _ ws_close_ => kapply keeps_ws_close; intros ? ?; leaf
      end
    | progress autounfold with session ].

Global Instance inbound_same_preorder : PreOrder inbound_same.
Proof.
  split.
  - intros s. by repeat split.
  - intros s1 s2 s3 (H1 & H2 & H3 & H4) (H1' & H2' & H3' & H4').
    repeat split; congruence.
Qed.

Lemma exec_call_inbound_same (c : Call) : keeps inbound_same (exec_call c).
Proof.
  destruct c; simpl; keeps_auto ltac:(by repeat split).
Qed.

Lemma exec_calls_inbound_same (cs : list Call) :
  keeps inbound_same (exec_calls cs).
Proof.
  induction cs as [|c cs IH]; simpl.
  - kapply keeps_ret.
  - kapply keeps_bind; [apply exec_call_inbound_same | intros _; exact IH].
Qed.

(* ===================================================================== *)
(** ** Validation of inbound envelopes *)
(* ===================================================================== *)

Lemma processTextMessage_closed (message : ClientMessage) (s : Session) :
  closed s = true -> processTextMessage message s = (Return tt, s).
Proof. intros H. unfold processTextMessage. munfold. by rewrite H. Qed.

Lemma processTextMessage_open (message : ClientMessage) (s : Session) :
  closed s = false ->
  processTextMessage message s =
    match validate s message with
    | BadSeq =>
        (Return tt, disconnected_with "Invalid client sequence number." s)
    | BadServerSeq =>
        (Return tt,
         disconnected_with "Invalid server sequence number."
           (set_lastClientSequenceNumber (cm_seq message) s))
    | BadId =>
        (Return tt,
         disconnected_with "Invalid ID specified."
           (set_lastClientSequenceNumber (cm_seq message) s))
    | Accepted =>
        match messageHandlerRegistry s !! cm_type message with
        | Some handler =>
            handleMessage handler message
              (set_lastClientSequenceNumber (cm_seq message) s)
        | None =>
            (Return tt, set_lastClientSequenceNumber (cm_seq message) s)
        end
    end.
Proof.
  intros Hopen. unfold processTextMessage, validate, disconnected_with.
  unfold bind at 1. unfold this at 1. rewrite Hopen.
  destruct (negb (cm_seq message =? lastClientSequenceNumber s + 1)%Z).
  { apply sendDisconnect_eq. }
  unfold bind at 1. unfold assign at 1. unfold bind at 1. unfold this at 1.
  cbn [lastServerSequenceNumber clientSessionId messageHandlerRegistry
       set_lastClientSequenceNumber].
  destruct (lastServerSequenceNumber s <? cm_serverseq message)%Z.
  { apply sendDisconnect_eq. }
  destruct (negb (String.eqb (cm_id message) (clientSessionId s))).
  { apply sendDisconnect_eq. }
  destruct (messageHandlerRegistry s !! cm_type message); reflexivity.
Qed.

Lemma handleMessage_inbound (handler : MessageHandler)
    (message : ClientMessage) (s : Session) :
  lastClientSequenceNumber (after (handleMessage handler message) s) =
    lastClientSequenceNumber s /\
  handled (after (handleMessage handler message) s) =
    (handled s ++ [message])%list.
Proof.
  unfold handleMessage, after. unfold bind, assign.
  pose proof (exec_calls_inbound_same (handler message)
                (set_handled (handled s ++ [message]) s)) as (H1 & H2 & _).
  unfold after in H1, H2. rewrite H1, H2. by split.
Qed.

(** C9, as stated, fails.  An envelope with the right [seq] but a
    [serverseq] the session has not issued is rejected, yet the inbound
    counter has moved from 0 to 1. *)
Lemma rejected_envelope_advances_counter :
  let message :=
    {| cm_id := "call-1"; cm_seq := 1; cm_serverseq := 7; cm_type := "open";
       cm_parameters := "" |} in
  validate example_session message = BadServerSeq /\
  lastClientSequenceNumber example_session = 0 /\
  lastClientSequenceNumber
    (after (processTextMessage message) example_session) = 1 /\
  handled (after (processTextMessage message) example_session) = [].
Proof. vm_compute. auto. Qed.

(** C9, amended.  On an open session the inbound counter is advanced as
    soon as the envelope passes the first check, [seq] equal to the counter
    plus one, before the other two checks are made.  A wrong [seq] leaves the
    counter as it was; a wrong [serverseq] or a wrong [id] leaves it at the
    envelope's [seq].  On each of the three violations nothing else changes
    but what sending the error disconnect changes, and no handler is invoked;
    an accepted envelope is handed to the handler registered for its type, if
    there is one.  A closed session ignores the envelope altogether. *)
Theorem counter_advances_after_first_check
    (s : Session) (message : ClientMessage) :
  let s' := after (processTextMessage message) s in
  if closed s then s' = s
  else
    lastClientSequenceNumber s' =
      match validate s message with
      | BadSeq => lastClientSequenceNumber s
      | _ => cm_seq message
      end /\
    handled s' =
      match validate s message with
      | Accepted =>
          match messageHandlerRegistry s !! cm_type message with
          | Some _ => (handled s ++ [message])%list
          | None => handled s
          end
      | _ => handled s
      end /\
    match validate s message with
    | BadSeq => s' = disconnected_with "Invalid client sequence number." s
    | BadServerSeq =>
        s' = disconnected_with "Invalid server sequence number."
               (set_lastClientSequenceNumber (cm_seq message) s)
    | BadId =>
        s' = disconnected_with "Invalid ID specified."
               (set_lastClientSequenceNumber (cm_seq message) s)
    | Accepted => True
    end.
Proof.
  intros s'. subst s'. unfold after.
  destruct (closed s) eqn:Hc.
  { by rewrite processTextMessage_closed. }
  rewrite (processTextMessage_open message s Hc).
  destruct (validate s message); try (split_and!; reflexivity).
  destruct (messageHandlerRegistry s !! cm_type message) as [handler|];
    [|split_and!; reflexivity].
  destruct (handleMessage_inbound handler message
              (set_lastClientSequenceNumber (cm_seq message) s)) as [H1 H2].
  unfold after in H1, H2. rewrite H1, H2. split_and!; reflexivity.
Qed.

(* ===================================================================== *)
(** ** A sequence violation *)
(* ===================================================================== *)

(** C1, as stated, fails.  On the example call an envelope with [seq] 5
    arrives first and is answered with the error disconnect; the envelope
    with [seq] 1 that follows is validated against the unchanged counter,
    accepted, and handed to its handler. *)
Lemma envelope_after_violation_is_handled :
  let s1 := step example_session (TextMessage (inbound 5 "open" "")) in
  let s2 := step s1 (TextMessage (inbound 1 "open" "")) in
  disconnecting s1 = true /\
  handled s1 = [] /\
  handled s2 = [inbound 1 "open" ""].
Proof. vm_compute. auto. Qed.

(** C1, amended.  On a session that is not closed, an envelope whose [seq]
    is not the inbound counter plus one makes the session send exactly one
    envelope, a disconnect with reason error, and set [disconnecting]; no
    handler is invoked for it and the inbound counter stays.  From then on
    audio frames and digits are dropped without any effect.  Text envelopes
    are not stopped: [processTextMessage] does not test [disconnecting], and
    a later envelope that passes the three checks is still handed to the
    handler registered for its type. *)
Theorem sequence_violation_disconnects
    (s : Session) (message : ClientMessage)
    (Hopen : closed s = false)
    (Hseq : cm_seq message <> lastClientSequenceNumber s + 1) :
  let s' := after (processTextMessage message) s in
  returns (processTextMessage message) s /\
  sent (ws s') =
    (sent (ws s) ++
     [TextFrame
        {| sm_id := clientSessionId s; sm_version := "2";
           sm_seq := lastServerSequenceNumber s + 1;
           sm_clientseq := lastClientSequenceNumber s;
           sm_type := "disconnect";
           sm_parameters :=
             DisconnectParameters "error" "Invalid client sequence number."
               ∅ |}])%list /\
  handled s' = handled s /\
  lastClientSequenceNumber s' = lastClientSequenceNumber s /\
  disconnecting s' = true /\
  (forall data, processBinaryMessage data s' = (Return tt, s')) /\
  (forall digit, processDTMF digit s' = (Return tt, s')) /\
  (forall later handler,
     validate s' later = Accepted ->
     messageHandlerRegistry s' !! cm_type later = Some handler ->
     handled (after (processTextMessage later) s') =
       (handled s ++ [later])%list).
Proof.
  intros s'. subst s'. unfold after, returns.
  rewrite (processTextMessage_open message s Hopen).
  assert (Hv : validate s message = BadSeq).
  { unfold validate. by destruct (Z.eqb_spec (cm_seq message)
                                    (lastClientSequenceNumber s + 1)). }
  rewrite Hv. simpl fst. simpl snd.
  set (s' := disconnected_with "Invalid client sequence number." s).
  assert (Hinert : inert s' = true) by reflexivity.
  split_and!.
  - by eexists.
  - reflexivity.
  - reflexivity.
  - reflexivity.
  - reflexivity.
  - intros data. by apply processBinaryMessage_inert.
  - intros digit. by apply processDTMF_inert.
  - intros later handler Hacc Hreg.
    rewrite (processTextMessage_open later s' Hopen), Hacc, Hreg.
    exact (proj2 (handleMessage_inbound handler later
                    (set_lastClientSequenceNumber (cm_seq later) s'))).
Qed.

(** The amended claim at the envelope with [seq] 5 on the example call. *)
Lemma sequence_violation_disconnects_witness :
  let s' := after (processTextMessage (inbound 5 "open" "")) example_session in
  sent (ws s') =
    [TextFrame
       {| sm_id := "call-1"; sm_version := "2"; sm_seq := 1;
          sm_clientseq := 0; sm_type := "disconnect";
          sm_parameters :=
            DisconnectParameters "error" "Invalid client sequence number."
              ∅ |}] /\
  handled s' = [] /\
  handled (after (processTextMessage (inbound 1 "open" "")) s') =
    [inbound 1 "open" ""].
Proof.
  intros s'.
  destruct (sequence_violation_disconnects example_session
              (inbound 5 "open" ""))
    as (_ & Hsent & Hhandled & _ & _ & _ & _ & Hlater);
    [reflexivity | vm_compute; discriminate |].
  split; [exact Hsent|]. split; [exact Hhandled|].
  apply (Hlater (inbound 1 "open" "")
           (fun _ => [CallCheckIfBotExists; CallSend "opened" EmptyParameters;
                      CallProcessBotStart])).
  - vm_compute. reflexivity.
  - vm_compute. reflexivity.
Defined.

(* ===================================================================== *)
(** ** Arbitration between the two capture engines *)
(* ===================================================================== *)

Global Instance preserves_preorder (P : Session -> Prop) :
  PreOrder (preserves P).
Proof. split; unfold preserves; [intros s; auto | intros s1 s2 s3; auto]. Qed.

Ltac nsd_leaf := unfold preserves, no_speech_during_digits; simpl; auto.

Lemma processDTMF_no_speech (digit : string) :
  keeps (preserves no_speech_during_digits) (processDTMF digit).
Proof.
  intros s HI. unfold processDTMF, after. munfold.
  destruct (disconnecting s || closed s
            || negb (bool_decide (is_Some (selectedBot s)))); [exact HI|].
  destruct (isAudioPlaying s); [intros _; reflexivity|].
  unfold no_speech_during_digits in *.
  destruct (isCapturingDTMF s); simpl;
    destruct (dtmf_needs_new (dtmfService s)); simpl;
    try destruct (dtmfService s); simpl; auto.
Qed.

Lemma processBinaryMessage_no_speech (data : Uint8Array) :
  keeps (preserves no_speech_during_digits) (processBinaryMessage data).
Proof.
  intros s HI. unfold processBinaryMessage, after. munfold.
  destruct (disconnecting s || closed s
            || negb (bool_decide (is_Some (selectedBot s)))); [exact HI|].
  destruct (isCapturingDTMF s) eqn:Hd; [exact HI|].
  unfold no_speech_during_digits.
  destruct (isAudioPlaying s); simpl; [auto|].
  destruct (asr_needs_new (asrService s)); simpl;
    try destruct (asrService s); simpl; rewrite ?Hd; intros; congruence.
Qed.

Lemma onDigitsReply_no_speech (response : BotResponse) :
  keeps (preserves no_speech_during_digits) (onDigitsReply response).
Proof.
  intros s _. destruct (turn_stages_sent response s) as (s' & _ & Hrun).
  unfold after, onDigitsReply. rewrite Hrun. simpl. intros H. discriminate.
Qed.

Lemma exec_call_no_speech (c : Call) :
  keeps (preserves no_speech_during_digits) (exec_call c).
Proof.
  destruct c; simpl; try apply processDTMF_no_speech;
    keeps_auto nsd_leaf.
Qed.

Lemma exec_calls_no_speech (cs : list Call) :
  keeps (preserves no_speech_during_digits) (exec_calls cs).
Proof.
  induction cs as [|c cs IH]; simpl.
  - kapply keeps_ret.
  - kapply keeps_bind; [apply exec_call_no_speech | intros _; exact IH].
Qed.

Lemma processTextMessage_no_speech (message : ClientMessage) :
  keeps (preserves no_speech_during_digits) (processTextMessage message).
Proof.
  unfold processTextMessage. keeps_auto nsd_leaf.
  apply exec_calls_no_speech.
Qed.

Lemma asr_reports_no_speech (held : bool) (s s' : Session) :
  asr_reports held s = Some s' -> preserves no_speech_during_digits s s'.
Proof.
  unfold asr_reports, preserves, no_speech_during_digits.
  destruct held; [|by intros [= <-]].
  destruct (asrService s) as [e|] eqn:He; [|done].
  destruct (asr_state e); try done. intros [= <-] HI. simpl.
  intros Hd. specialize (HI Hd). congruence.
Qed.

Lemma dtmf_reports_no_speech (held : bool) (s s' : Session) :
  dtmf_reports held s = Some s' -> preserves no_speech_during_digits s s'.
Proof.
  unfold dtmf_reports, preserves, no_speech_during_digits.
  destruct held; [|by intros [= <-]].
  destruct (dtmfService s) as [e|]; [|done].
  destruct (dtmf_state e); try done. by intros [= <-].
Qed.

Lemma step_no_speech (s : Session) (e : Event) :
  preserves no_speech_during_digits s (step s e).
Proof.
  destruct e as [m|data|held|held t|held|held d|k r|]; simpl.
  - apply processTextMessage_no_speech.
  - apply processBinaryMessage_no_speech.
  - destruct (asr_reports held s) as [s'|] eqn:Hr; [|reflexivity].
    etransitivity; [by eapply asr_reports_no_speech|].
    revert s'  Hr. intros s' _. revert s'.
    change (keeps (preserves no_speech_during_digits) onSpeechError).
    keeps_auto nsd_leaf.
  - destruct (asr_reports held s) as [s'|] eqn:Hr; [|reflexivity].
    etransitivity; [by eapply asr_reports_no_speech|].
    revert s' Hr. intros s' _. revert s'.
    change (keeps (preserves no_speech_during_digits) (onFinalTranscript t)).
    keeps_auto nsd_leaf.
  - destruct (dtmf_reports held s) as [s'|] eqn:Hr; [|reflexivity].
    etransitivity; [by eapply dtmf_reports_no_speech|].
    revert s' Hr. intros s' _. revert s'.
    change (keeps (preserves no_speech_during_digits) onDigitsError).
    keeps_auto nsd_leaf.
  - destruct (dtmf_reports held s) as [s'|] eqn:Hr; [|reflexivity].
    etransitivity; [by eapply dtmf_reports_no_speech|].
    revert s' Hr. intros s' _. revert s'.
    change (keeps (preserves no_speech_during_digits) (onFinalDigits d)).
    keeps_auto nsd_leaf.
  - destruct (bool_decide (k ∈ pending s)); [|reflexivity].
    etransitivity; [|destruct k; simpl].
    + instantiate (1 := set_pending (remove_first k (pending s)) s). nsd_leaf.
    + generalize (set_pending (remove_first OnStartReply (pending s)) s).
      change (keeps (preserves no_speech_during_digits) (onStartReply r)).
      keeps_auto nsd_leaf.
    + generalize (set_pending (remove_first OnSpeechReply (pending s)) s).
      change (keeps (preserves no_speech_during_digits) (onSpeechReply r)).
      keeps_auto nsd_leaf.
    + apply onDigitsReply_no_speech.
  - revert s. change (keeps (preserves no_speech_during_digits) close).
    keeps_auto nsd_leaf.
Qed.

Lemma run_no_speech (s : Session) (es : list Event) :
  no_speech_during_digits s -> no_speech_during_digits (run s es).
Proof.
  apply (keeps_foldl (preserves no_speech_during_digits) step step_no_speech).
Qed.

Lemma processBinaryMessage_during_digits (data : Uint8Array) (s : Session) :
  isCapturingDTMF s = true -> processBinaryMessage data s = (Return tt, s).
Proof.
  intros Hd. unfold processBinaryMessage. munfold. rewrite Hd.
  by destruct (disconnecting s || closed s
               || negb (bool_decide (is_Some (selectedBot s)))).
Qed.

Lemma processDTMF_first_digit (digit : string) (s : Session) :
  inert s = false -> isAudioPlaying s = false -> isCapturingDTMF s = false ->
  returns (processDTMF digit) s /\
  isCapturingDTMF (after (processDTMF digit) s) = true /\
  asrService (after (processDTMF digit) s) = None /\
  dtmf_live (dtmfService (after (processDTMF digit) s)) = true.
Proof.
  unfold inert. intros Hi Hp Hd. unfold processDTMF, returns, after. munfold.
  rewrite Hi, Hp, Hd. destruct s. simpl in *.
  destruct dtmfService0 as [[[] ds]|]; simpl; eauto 6.
Qed.

(** C3, as stated, fails.  On the example call the bot's reply to a first
    digit capture clears [isCapturingDTMF] while a second digit capture is
    under way; the next audio frame then starts a speech engine, and both
    engines are mid-capture at once. *)
Lemma both_engines_live :
  let s := step reply_during_second_capture (BinaryMessage [Byte.x10]) in
  dtmfService reply_during_second_capture =
    Some {| dtmf_state := Capturing; dtmf_digits := ["2"] |} /\
  isCapturingDTMF reply_during_second_capture = false /\
  asrService s = Some {| asr_state := Capturing; asr_audio := [[Byte.x10]] |} /\
  dtmfService s = Some {| dtmf_state := Capturing; dtmf_digits := ["2"] |} /\
  asr_live (asrService s) && dtmf_live (dtmfService s) = true.
Proof. vm_compute. auto 6. Qed.

(** C3, amended.  In every state a session reaches from its construction,
    while [isCapturingDTMF] is true the session holds no speech engine, so
    the speech engine is not live while digit capture is flagged.  The first
    digit of a new capture (session not disconnecting, not closed, with a
    bot, no playback, flag clear) sets [isCapturingDTMF], sets [asrService]
    to null and leaves a digit engine mid-capture.  While [isCapturingDTMF]
    is true [processBinaryMessage] returns with the session untouched: it
    neither creates nor feeds a speech engine. *)
Theorem digits_exclude_speech
    (registry : gmap string MessageHandler) (w : WebSocket)
    (sessionId url_ : string) (es : list Event)
    (t : Session) (data : Uint8Array) (digit : string) :
  let s := run (new_Session registry w sessionId url_) es in
  (isCapturingDTMF s = true ->
     asrService s = None /\ asr_live (asrService s) = false) /\
  (inert t = false -> isAudioPlaying t = false -> isCapturingDTMF t = false ->
     returns (processDTMF digit) t /\
     isCapturingDTMF (after (processDTMF digit) t) = true /\
     asrService (after (processDTMF digit) t) = None /\
     dtmf_live (dtmfService (after (processDTMF digit) t)) = true) /\
  (isCapturingDTMF t = true ->
     processBinaryMessage data t = (Return tt, t)).
Proof.
  intros s. split_and!.
  - intros Hd.
    assert (Hnone : asrService s = None).
    { apply (run_no_speech (new_Session registry w sessionId url_) es);
        [|exact Hd]. intros Hfalse. discriminate. }
    by rewrite Hnone.
  - apply processDTMF_first_digit.
  - apply processBinaryMessage_during_digits.
Qed.

(** The amended claim on the example call: the caller speaks, then
    presses 5, then speaks again. *)
Lemma digits_exclude_speech_witness :
  let speaking :=
    run example_session
      [TextMessage (inbound 1 "open" ""); BinaryMessage [Byte.x10]] in
  let pressed := after (processDTMF "5") speaking in
  asr_live (asrService speaking) = true /\
  isCapturingDTMF pressed = true /\
  asrService pressed = None /\
  dtmf_live (dtmfService pressed) = true /\
  processBinaryMessage [Byte.x11] pressed = (Return tt, pressed) /\
  asrService
    (run example_session
       [TextMessage (inbound 1 "open" ""); BinaryMessage [Byte.x10];
        TextMessage (inbound 2 "dtmf" "5")]) = None.
Proof.
  intros speaking pressed.
  destruct (digits_exclude_speech example_registry example_socket
              "call-1" "/ws/audio"
              [TextMessage (inbound 1 "open" ""); BinaryMessage [Byte.x10];
               TextMessage (inbound 2 "dtmf" "5")]
              speaking [Byte.x11] "5") as (Hinv & Hfirst & _).
  destruct (digits_exclude_speech example_registry example_socket
              "call-1" "/ws/audio" [] pressed [Byte.x11] "5")
    as (_ & _ & Hdrop).
  destruct Hfirst as (_ & H1 & H2 & H3); [vm_compute; reflexivity ..|].
  destruct Hinv as [H4 _]; [vm_compute; reflexivity|].
  split; [vm_compute; reflexivity|].
  split; [exact H1|]. split; [exact H2|]. split; [exact H3|].
  split; [apply Hdrop; exact H1 | exact H4].
Defined.

(* ===================================================================== *)
(** ** Outbound sequence numbers over a run *)
(* ===================================================================== *)



Global Instance stamps_densely_preorder : PreOrder stamps_densely.
Proof.
  split.
  - intros s. split_and!; try done. exists []. simpl.
    rewrite app_nil_r, Z.add_0_r. split_and!; done.
  - intros s1 s2 s3 (Hid & Hreg & new & Henv & Hseq & Hlast & Hall)
      (Hid' & Hreg' & new' & Henv' & Hseq' & Hlast' & Hall').
    split_and!; [congruence | congruence |].
    exists (new ++ new')%list. split_and!.
    + rewrite Henv', Henv. by rewrite app_assoc.
    + rewrite fmap_app, length_app, Nat2Z.inj_add, seqZ_app by lia.
      rewrite Hseq, Hseq', Hlast. do 2 f_equal. lia.
    + rewrite Hlast', Hlast, length_app. lia.
    + apply Forall_app. split; [exact Hall|].
      rewrite Hid in Hall'. exact Hall'.
Qed.



















(* ===================================================================== *)
(** ** Further properties of the session *)
(* ===================================================================== *)

(** A relation kept by every listener and entry point is kept by every
    delivery of the event loop. *)
Section Deliveries.
Context (R : Session -> Session -> Prop) `{!PreOrder R}.
Hypothesis R_text : forall m, keeps R (processTextMessage m).
Hypothesis R_binary : forall data, keeps R (processBinaryMessage data).
Hypothesis R_speech_error : keeps R onSpeechError.
Hypothesis R_transcript : forall t, keeps R (onFinalTranscript t).
Hypothesis R_digits_error : keeps R onDigitsError.
Hypothesis R_digits : forall d, keeps R (onFinalDigits d).
Hypothesis R_reply : forall k r, keeps R (run_continuation k r).
Hypothesis R_close : keeps R close.
Hypothesis R_asr : forall held s s', asr_reports held s = Some s' -> R s s'.
Hypothesis R_dtmf : forall held s s', dtmf_reports held s = Some s' -> R s s'.
Hypothesis R_pending : forall s v, R s (set_pending v s).

Lemma step_keeps_other (s : Session) (e : Event) :
  is_text e = false -> R s (step s e).
Proof.
  destruct e as [m|data|held|held t|held|held d|k r|]; simpl; intros Ht.
  - discriminate.
  - apply R_binary.
  - destruct (asr_reports held s) as [s'|] eqn:Hr; [|reflexivity].
    etransitivity; [by eapply R_asr | apply R_speech_error].
  - destruct (asr_reports held s) as [s'|] eqn:Hr; [|reflexivity].
    etransitivity; [by eapply R_asr | apply R_transcript].
  - destruct (dtmf_reports held s) as [s'|] eqn:Hr; [|reflexivity].
    etransitivity; [by eapply R_dtmf | apply R_digits_error].
  - destruct (dtmf_reports held s) as [s'|] eqn:Hr; [|reflexivity].
    etransitivity; [by eapply R_dtmf | apply R_digits].
  - destruct (bool_decide (k ∈ pending s)); [|reflexivity].
    etransitivity; [apply R_pending | apply R_reply].
  - apply R_close.
Qed.

Lemma step_keeps (s : Session) (e : Event) : R s (step s e).
Proof.
  destruct (is_text e) eqn:Ht; [|by apply step_keeps_other].
  destruct e; try discriminate. apply R_text.
Qed.

Lemma run_keeps (es : list Event) (s : Session) : R s (run s es).
Proof. apply (keeps_foldl R step step_keeps). Qed.
End Deliveries.

Lemma exec_calls_keeps (R : Session -> Session -> Prop) `{!PreOrder R} :
  (forall c, keeps R (exec_call c)) -> forall cs, keeps R (exec_calls cs).
Proof.
  intros Hc cs. induction cs as [|c cs IH]; simpl.
  - kapply keeps_ret.
  - kapply keeps_bind; [apply Hc | intros _; exact IH].
Qed.

Lemma asr_reports_cases (held : bool) (s s' : Session) :
  asr_reports held s = Some s' ->
  s' = s \/
  exists e, asrService s = Some e /\ asr_state e = Capturing /\
            s' = set_asrService (Some (asr_complete e)) s.
Proof.
  unfold asr_reports. destruct held; [|intros [= <-]; by left].
  destruct (asrService s) as [e|]; [|done].
  destruct (asr_state e) eqn:Hst; try done. intros [= <-]. right. eauto.
Qed.

Lemma dtmf_reports_cases (held : bool) (s s' : Session) :
  dtmf_reports held s = Some s' ->
  s' = s \/
  exists e, dtmfService s = Some e /\ dtmf_state e = Capturing /\
            s' = set_dtmfService (Some (dtmf_complete e)) s.
Proof.
  unfold dtmf_reports. destruct held; [|intros [= <-]; by left].
  destruct (dtmfService s) as [e|]; [|done].
  destruct (dtmf_state e) eqn:Hst; try done. intros [= <-]. right. eauto.
Qed.

(** Decompose a method as [keeps_auto] does, trying [pre] on every goal
    first. *)
Ltac keeps_auto_with pre leaf :=
  repeat first
    [ pre
    | keeps_step
    | lazymatch goal with
      | |- keeps _ (assign _) => kapply keeps_assign; intros ?; leaf
      | |- keeps _ (sendAudio _) => kapply keeps_sendAudio; intros ? ?; leaf
      | |- keeps _ (createMessage _ _) =>
          kapply keeps_createMessage; intros ? ?; leaf
      | |- keeps _ (send _) => kapply keeps_send; intros ? ?; leaf
      | |- keeps _ ws_close_ => kapply keeps_ws_close; intros ? ?; leaf
      end
    | progress autounfold with session ].

(** Every delivery of a run keeps a relation whose assignments [leaf]
    settles one by one, once [pre] has settled the methods that need the
    state they start from. *)
Ltac deliveries_with pre leaf :=
  let Hcalls := fresh "Hcalls" in
  match goal with
  | |- ?R ?s (run ?s ?es) =>
      assert (Hcalls : forall cs, keeps R (exec_calls cs))
        by (apply exec_calls_keeps; [typeclasses eauto|];
            intros c; destruct c; simpl; keeps_auto_with pre leaf);
      apply run_keeps; [typeclasses eauto | ..]; intros;
      try match goal with
          | |- keeps _ (run_continuation ?k _) => destruct k; simpl
          | |- keeps _ (processTextMessage _) => unfold processTextMessage
          end;
      try (keeps_auto_with pre leaf; try apply Hcalls);
      try match goal with
          | H : asr_reports _ _ = Some _ |- _ =>
              destruct (asr_reports_cases _ _ _ H)
                as [->|(? & ? & ? & ->)]
          | H : dtmf_reports _ _ = Some _ |- _ =>
              destruct (dtmf_reports_cases _ _ _ H)
                as [->|(? & ? & ? & ->)]
          end;
      try reflexivity; try leaf
  end.

Ltac deliveries_auto leaf := deliveries_with fail leaf.

Ltac flag_leaf := unfold preserves; simpl; eauto.

Lemma disconnecting_stays (s : Session) (es : list Event) :
  preserves (fun s => disconnecting s = true) s (run s es).
Proof. deliveries_auto flag_leaf. Qed.

Lemma closed_stays (s : Session) (es : list Event) :
  preserves (fun s => closed s = true) s (run s es).
Proof. deliveries_auto flag_leaf. Qed.

Lemma bot_stays (s : Session) (es : list Event) :
  preserves (fun s => is_Some (selectedBot s)) s (run s es).
Proof. deliveries_auto flag_leaf. Qed.

(** X1. Over any run of events, a session that is disconnecting stays
    disconnecting, a closed session stays closed, and a session that has a
    bot keeps having one: nothing in the class resets these. *)
Theorem flags_never_reset (s : Session) (es : list Event) :
  (disconnecting s = true -> disconnecting (run s es) = true) /\
  (closed s = true -> closed (run s es) = true) /\
  (is_Some (selectedBot s) -> is_Some (selectedBot (run s es))).
Proof.
  split_and!;
    [apply disconnecting_stays | apply closed_stays | apply bot_stays].
Qed.

(** The property on the example call after its error disconnect, and after
    its close. *)
Lemma flags_never_reset_witness :
  disconnecting
    (run rejected_while_bot_thinks
       [BotReply OnSpeechReply example_reply;
        TextMessage (inbound 2 "ping" ""); BinaryMessage [Byte.x10]]) = true /\
  closed
    (run closed_while_bot_thinks
       [BotReply OnSpeechReply example_reply; SocketClosed]) = true /\
  is_Some (selectedBot
    (run rejected_while_bot_thinks
       [BotReply OnSpeechReply example_reply;
        TextMessage (inbound 2 "ping" ""); BinaryMessage [Byte.x10]])).
Proof.
  split_and!.
  - apply (flags_never_reset rejected_while_bot_thinks). vm_compute. reflexivity.
  - apply (flags_never_reset closed_while_bot_thinks). vm_compute. reflexivity.
  - apply (flags_never_reset rejected_while_bot_thinks). vm_compute. eauto.
Defined.

(* --------------------------------------------------------------------- *)

Global Instance unchanged_preorder {A} (f : Session -> A) :
  PreOrder (unchanged f).
Proof.
  split; unfold unchanged; [intros s; done | intros s1 s2 s3; congruence].
Qed.

Global Instance shut_starves_preorder : PreOrder shut_starves.
Proof.
  split; unfold shut_starves.
  - intros s. auto.
  - intros s1 s2 s3 H12 H23 Hs. destruct (H12 Hs) as [Hs2 He2].
    destruct (H23 Hs2) as [Hs3 He3]. split; [done | congruence].
Qed.

Lemma shut_inert (s : Session) : shut s -> inert s = true.
Proof.
  unfold shut, inert. intros [-> | ->]; [done|].
  by rewrite orb_true_r.
Qed.

Lemma processBinaryMessage_shut (data : Uint8Array) :
  keeps shut_starves (processBinaryMessage data).
Proof.
  intros s Hs. unfold after.
  rewrite processBinaryMessage_inert by (by apply shut_inert). done.
Qed.

Lemma processDTMF_shut (digit : string) :
  keeps shut_starves (processDTMF digit).
Proof.
  intros s Hs. unfold after.
  rewrite processDTMF_inert by (by apply shut_inert). done.
Qed.

Ltac shut_pre :=
  idtac;
  lazymatch goal with
  | |- keeps _ (processBinaryMessage _) => apply processBinaryMessage_shut
  | |- keeps _ (processDTMF _) => apply processDTMF_shut
  end.

Ltac shut_leaf :=
  unfold shut_starves, shut, engine_input; simpl; intros;
  (split; [tauto|]);
  repeat match goal with H : _ = Some _ |- _ => rewrite H end;
  reflexivity.

(** X2. Once the session has sent a disconnect or has been closed, no
    capture engine is created, dropped or handed anything for the rest of the
    call, whatever arrives: what the held engines have been handed stays
    as it is. *)
Theorem no_capture_after_shutdown (s : Session) (es : list Event)
    (Hshut : shut s) :
  shut (run s es) /\ engine_input (run s es) = engine_input s.
Proof.
  revert Hshut. change (shut_starves s (run s es)).
  deliveries_with shut_pre shut_leaf.
Qed.

(** The property on the example call after its error disconnect. *)
Lemma no_capture_after_shutdown_witness :
  engine_input
    (run rejected_while_bot_thinks
       [BinaryMessage [Byte.x11]; TextMessage (inbound 2 "dtmf" "5");
        BotReply OnSpeechReply example_reply; BinaryMessage [Byte.x12]])
  = (Some [[Byte.x10]], None).
Proof.
  destruct (no_capture_after_shutdown rejected_while_bot_thinks
              [BinaryMessage [Byte.x11]; TextMessage (inbound 2 "dtmf" "5");
               BotReply OnSpeechReply example_reply; BinaryMessage [Byte.x12]])
    as [_ H]; [left; vm_compute; reflexivity|].
  rewrite H. vm_compute. reflexivity.
Defined.

(* --------------------------------------------------------------------- *)

Lemma inert_false_bot (s : Session) :
  inert s = false -> is_Some (selectedBot s).
Proof.
  unfold inert. intros H. apply orb_false_elim in H as [_ H].
  apply negb_false_iff, bool_decide_eq_true in H. exact H.
Qed.

Lemma processBinaryMessage_needs_bot (data : Uint8Array) :
  keeps (preserves engine_needs_bot) (processBinaryMessage data).
Proof.
  intros s HI. destruct (inert s) eqn:Hi.
  { unfold after. by rewrite processBinaryMessage_inert. }
  pose proof (inert_false_bot s Hi) as Hbot.
  intros _.
  assert (Hk : keeps (preserves (fun s => is_Some (selectedBot s)))
                 (processBinaryMessage data)) by keeps_auto flag_leaf.
  exact (Hk s Hbot).
Qed.

Lemma processDTMF_needs_bot (digit : string) :
  keeps (preserves engine_needs_bot) (processDTMF digit).
Proof.
  intros s HI. destruct (inert s) eqn:Hi.
  { unfold after. by rewrite processDTMF_inert. }
  pose proof (inert_false_bot s Hi) as Hbot.
  intros _.
  assert (Hk : keeps (preserves (fun s => is_Some (selectedBot s)))
                 (processDTMF digit)) by keeps_auto flag_leaf.
  exact (Hk s Hbot).
Qed.

Ltac needs_bot_pre :=
  idtac;
  lazymatch goal with
  | |- keeps _ (processBinaryMessage _) => apply processBinaryMessage_needs_bot
  | |- keeps _ (processDTMF _) => apply processDTMF_needs_bot
  end.

Ltac needs_bot_leaf :=
  unfold preserves, engine_needs_bot; simpl;
  let HI := fresh in
  let Hh := fresh in
  intros HI Hh;
  first
    [ by eexists
    | apply HI; destruct Hh as [[? ?]|[? ?]]; try discriminate;
      first [ left; eexists; eassumption | right; eexists; eassumption ] ].

Lemma run_needs_bot (s : Session) (es : list Event) :
  preserves engine_needs_bot s (run s es).
Proof. deliveries_with needs_bot_pre needs_bot_leaf. Qed.

Lemma ask_then_returns (r : BotRequest) (k : Continuation) (s : Session) :
  is_Some (selectedBot s) -> returns (ask_then r k) s.
Proof.
  intros [bot Hbot]. unfold returns, ask_then. munfold. rewrite Hbot.
  simpl. eauto.
Qed.

(** X3. In every state a session reaches from its construction, a held
    capture engine comes with a selected bot.  So the reads of
    [this.selectedBot!] in the listeners of a held engine never meet null:
    the final-transcript and final-digits listeners return normally. *)
Theorem held_engine_has_bot
    (registry : gmap string MessageHandler) (w : WebSocket)
    (sessionId url_ : string) (es : list Event)
    (transcript_text digits : string) :
  let s := run (new_Session registry w sessionId url_) es in
  (is_Some (asrService s) \/ is_Some (dtmfService s) ->
     is_Some (selectedBot s)) /\
  (is_Some (asrService s) -> returns (onFinalTranscript transcript_text) s) /\
  (is_Some (dtmfService s) -> returns (onFinalDigits digits) s).
Proof.
  intros s.
  assert (HI : engine_needs_bot s).
  { apply run_needs_bot. intros [[? H]|[? H]]; discriminate. }
  split_and!.
  - exact HI.
  - intros Ha. unfold onFinalTranscript, returns. munfold.
    destruct (isCapturingDTMF s); [simpl; eauto|].
    apply (ask_then_returns _ _ s). apply HI. by left.
  - intros Hd. apply (ask_then_returns _ _ s). apply HI. by right.
Qed.

(** The property on the example call while the caller speaks. *)
Lemma held_engine_has_bot_witness :
  let s := run example_session
             [TextMessage (inbound 1 "open" ""); BinaryMessage [Byte.x10]] in
  is_Some (asrService s) /\ is_Some (selectedBot s) /\
  returns (onFinalTranscript "hello") s.
Proof.
  intros s.
  destruct (held_engine_has_bot example_registry example_socket "call-1"
              "/ws/audio"
              [TextMessage (inbound 1 "open" ""); BinaryMessage [Byte.x10]]
              "hello" "") as (Hbot & Hft & _).
  assert (Ha : is_Some (asrService s)) by (vm_compute; eauto).
  split; [exact Ha|]. split; [apply Hbot; by left | by apply Hft].
Defined.

(* --------------------------------------------------------------------- *)

Lemma step_other_inbound_same (s : Session) (e : Event) :
  is_text e = false -> inbound_same s (step s e).
Proof.
  intros Ht. apply step_keeps_other; try typeclasses eauto; try exact Ht;
    intros;
    try match goal with
        | |- keeps _ (run_continuation ?k _) => destruct k; simpl
        end;
    try (keeps_auto ltac:(by repeat split));
    try match goal with
        | H : asr_reports _ _ = Some _ |- _ =>
            destruct (asr_reports_cases _ _ _ H) as [->|(? & ? & ? & ->)]
        | H : dtmf_reports _ _ = Some _ |- _ =>
            destruct (dtmf_reports_cases _ _ _ H) as [->|(? & ? & ? & ->)]
        end;
    by repeat split.
Qed.

Lemma processTextMessage_counter (message : ClientMessage) (s : Session) :
  lastClientSequenceNumber (after (processTextMessage message) s) =
    lastClientSequenceNumber s \/
  lastClientSequenceNumber (after (processTextMessage message) s) =
    lastClientSequenceNumber s + 1.
Proof.
  unfold after. destruct (closed s) eqn:Hc.
  { rewrite processTextMessage_closed by done. by left. }
  rewrite (processTextMessage_open message s Hc).
  unfold validate.
  destruct (Z.eqb_spec (cm_seq message) (lastClientSequenceNumber s + 1))
    as [Heq|Hne]; simpl; [|by left].
  right. rewrite <- Heq.
  destruct (_ <? _)%Z; [reflexivity|].
  destruct (negb _); [reflexivity|].
  destruct (messageHandlerRegistry s !! cm_type message) as [handler|];
    [|reflexivity].
  exact (proj1 (handleMessage_inbound handler message
                  (set_lastClientSequenceNumber (cm_seq message) s))).
Qed.

(** X4. The inbound counter moves only when a text envelope is processed,
    and then by one at most: over any run it never decreases and grows by no
    more than the number of text envelopes delivered.  Audio, engine reports,
    bot replies and the socket's close leave it alone. *)
Theorem inbound_counter_bounds (s : Session) (es : list Event) :
  lastClientSequenceNumber s <= lastClientSequenceNumber (run s es) /\
  lastClientSequenceNumber (run s es) <=
    lastClientSequenceNumber s + Z.of_nat (length (filter is_text es)).
Proof.
  revert s. induction es as [|e es IH]; intros s; simpl.
  - lia.
  - specialize (IH (step s e)). fold (run (step s e) es) in IH.
    fold (run (step s e) es).
    destruct e as [m|data|held|held t|held|held d|k r|];
      try (match goal with
           | |- context [step s ?e] =>
               pose proof (step_other_inbound_same s e eq_refl) as (Hsame & _)
           end;
           rewrite filter_cons_False by (simpl; tauto); lia).
    rewrite filter_cons_True by done. simpl length.
    destruct (processTextMessage_counter m s) as [H|H];
      simpl in IH |- *; lia.
Qed.

(* --------------------------------------------------------------------- *)

Lemma set_lastClientSequenceNumber_same (s : Session) :
  set_lastClientSequenceNumber (lastClientSequenceNumber s) s = s.
Proof. by destruct s. Qed.

Lemma set_lastClientSequenceNumber_twice (a b : Z) (s : Session) :
  set_lastClientSequenceNumber a (set_lastClientSequenceNumber b s) =
    set_lastClientSequenceNumber a s.
Proof. reflexivity. Qed.

Lemma unknown_types_from (s : Session) (ms : list ClientMessage) :
  closed s = false ->
  forall n, in_sequence s n ms ->
    run (set_lastClientSequenceNumber n s) (TextMessage <$> ms) =
      set_lastClientSequenceNumber (n + Z.of_nat (length ms)) s.
Proof.
  intros Hopen. induction ms as [|m ms IH]; intros n Hseq.
  - simpl. by rewrite Z.add_0_r.
  - destruct Hseq as (Hs & Hss & Hid & Hreg & Hrest).
    rewrite fmap_cons.
    change (run ?x (?e :: ?l)) with (run (step x e) l).
    change (step ?x (TextMessage ?y)) with (after (processTextMessage y) x).
    unfold after. rewrite processTextMessage_open by exact Hopen.
    unfold validate.
    cbn [lastClientSequenceNumber set_lastClientSequenceNumber
         lastServerSequenceNumber clientSessionId messageHandlerRegistry].
    rewrite Hs, Z.eqb_refl. cbn [negb].
    destruct (Z.ltb_spec (lastServerSequenceNumber s) (cm_serverseq m));
      [lia|].
    rewrite Hid, String.eqb_refl. cbn [negb]. rewrite Hreg. cbn [snd].
    rewrite set_lastClientSequenceNumber_twice.
    rewrite (IH (n + 1) Hrest). f_equal. rewrite length_cons. lia.
Qed.

(** X5. An envelope of a type no handler is registered for is not an
    error.  On an open session, envelopes of unregistered types that arrive
    in sequence and pass the other two checks only move the inbound counter,
    by one each: nothing is sent, the session does not disconnect, and no
    other field changes. *)
Theorem unknown_types_only_count (s : Session) (ms : list ClientMessage)
    (Hopen : closed s = false)
    (Hseq : in_sequence s (lastClientSequenceNumber s) ms) :
  run s (TextMessage <$> ms) =
    set_lastClientSequenceNumber
      (lastClientSequenceNumber s + Z.of_nat (length ms)) s.
Proof.
  rewrite <- (unknown_types_from s ms Hopen _ Hseq).
  by rewrite set_lastClientSequenceNumber_same.
Qed.

(** The property on the example call: two envelopes of unknown types. *)
Lemma unknown_types_only_count_witness :
  run example_session
    [TextMessage (inbound 1 "update" ""); TextMessage (inbound 2 "pause" "")]
  = set_lastClientSequenceNumber 2 example_session.
Proof.
  apply (unknown_types_only_count example_session
           [inbound 1 "update" ""; inbound 2 "pause" ""]).
  - reflexivity.
  - vm_compute. repeat split; discriminate.
Defined.

(* --------------------------------------------------------------------- *)

Lemma onStartReply_eq (response : BotResponse) (s : Session) :
  exists s',
    onStartReply response s = (Return tt, s') /\
    sent (ws s') =
      (sent (ws s) ++ turn_event s response ++ turn_audio response)%list /\
    disconnecting s' = disconnecting s /\
    isCapturingDTMF s' = isCapturingDTMF s.
Proof.
  unfold turn_event, turn_audio, onStartReply.
  destruct response as [d t c a e]. simpl.
  unfold bind, when, when_some, ret.
  destruct (truthy_string t), a as [bytes|];
    rewrite ?sendTurnResponse_eq, ?sendAudio_frames;
    eexists; (split; [reflexivity|]); simpl;
    rewrite ?app_nil_r, <- ?app_assoc; auto.
Qed.

(** X6. The reply to the greeting request of [processBotStart] is emitted
    as the event (if it has text) followed by the audio frames (if it has
    audio) and nothing else: unlike the reply to a turn it never sends a
    disconnect and never sets [disconnecting], also when [endSession] is
    set. *)
Theorem greeting_never_disconnects (response : BotResponse) (s : Session) :
  returns (onStartReply response) s /\
  sent (ws (after (onStartReply response) s)) =
    (sent (ws s) ++ turn_event s response ++ turn_audio response)%list /\
  disconnecting (after (onStartReply response) s) = disconnecting s.
Proof.
  destruct (onStartReply_eq response s) as (s' & Hrun & Hsent & Hd & _).
  unfold returns, after. rewrite Hrun. simpl. eauto.
Qed.

Lemma onSpeechReply_flag (response : BotResponse) :
  keeps (unchanged isCapturingDTMF) (onSpeechReply response).
Proof. keeps_auto ltac:(reflexivity). Qed.

(** X7. The reply to a digit capture always ends by clearing
    [isCapturingDTMF], whether or not it ends the session; the reply to a
    speech turn leaves the flag as it finds it. *)
Theorem digits_reply_clears_flag (response : BotResponse) (s : Session) :
  isCapturingDTMF (after (onDigitsReply response) s) = false /\
  isCapturingDTMF (after (onSpeechReply response) s) = isCapturingDTMF s.
Proof.
  split; [|apply onSpeechReply_flag].
  destruct (turn_stages_sent response s) as (s' & _ & Hrun).
  unfold after, onDigitsReply. rewrite Hrun. reflexivity.
Qed.

(* --------------------------------------------------------------------- *)

Lemma processBinaryMessage_listening (data : Uint8Array) (s : Session) :
  listening s ->
  processBinaryMessage data s =
    (Return tt,
     set_asrService
       (Some {| asr_state := Capturing;
                asr_audio := asr_backlog (asrService s) ++ [data] |}) s).
Proof.
  unfold listening, inert. intros (Hi & Hd & Hp).
  unfold processBinaryMessage. munfold. rewrite Hi, Hd, Hp.
  destruct s. simpl in *.
  destruct asrService0 as [[[] audio]|]; reflexivity.
Qed.

(** X8. While the session takes speech (live, no digit capture, no
    playback), consecutive audio frames all reach one and the same speech
    engine, in order: the engine held before, or a new one if none was held or
    the held one had completed, so that a completed engine is never fed.
    Nothing else in the session changes. *)
Theorem audio_frames_reach_one_engine
    (s : Session) (frames : list Uint8Array)
    (Hlistening : listening s) (Hframes : frames <> []) :
  run s (BinaryMessage <$> frames) =
    set_asrService
      (Some {| asr_state := Capturing;
               asr_audio := asr_backlog (asrService s) ++ frames |}) s.
Proof.
  revert s Hlistening Hframes.
  induction frames as [|data frames IH]; intros s Hl Hne; [done|].
  rewrite fmap_cons.
  change (run ?x (?e :: ?l)) with (run (step x e) l).
  change (step ?x (BinaryMessage ?y))
    with (after (processBinaryMessage y) x).
  unfold after. rewrite processBinaryMessage_listening by exact Hl.
  cbn [snd].
  destruct frames as [|data' frames]; [reflexivity|].
  rewrite IH; [|exact Hl|done].
  cbn [asrService set_asrService asr_backlog asr_state asr_audio].
  by rewrite <- app_assoc.
Qed.

(** The property on the example call: three frames after the open. *)
Lemma audio_frames_reach_one_engine_witness :
  asrService
    (run (run example_session [TextMessage (inbound 1 "open" "")])
       (BinaryMessage <$> [[Byte.x10]; [Byte.x11]; [Byte.x12]])) =
  Some {| asr_state := Capturing;
          asr_audio := [[Byte.x10]; [Byte.x11]; [Byte.x12]] |}.
Proof.
  rewrite (audio_frames_reach_one_engine
             (run example_session [TextMessage (inbound 1 "open" "")])
             [[Byte.x10]; [Byte.x11]; [Byte.x12]]).
  - reflexivity.
  - vm_compute. auto.
  - discriminate.
Defined.

Lemma processDTMF_capturing (digit : string) (s : Session) :
  inert s = false -> isAudioPlaying s = false ->
  processDTMF digit s =
    (Return tt,
     set_dtmfService
       (Some {| dtmf_state := Capturing;
                dtmf_digits := dtmf_backlog (dtmfService s) ++ [digit] |})
       (if isCapturingDTMF s then s
        else set_asrService None (set_isCapturingDTMF true s))).
Proof.
  unfold inert. intros Hi Hp.
  unfold processDTMF. munfold. rewrite Hi, Hp.
  destruct s. simpl in *.
  destruct isCapturingDTMF0, dtmfService0 as [[[] digits]|]; reflexivity.
Qed.

(** X9. On a live session with no playback, digits handed to [processDTMF]
    one after the other all reach one and the same digit engine, in order
    (the engine held before, or a new one if none was held or the held one
    had completed); [isCapturingDTMF] is set and the speech engine dropped by
    the first of them if the flag was clear, and nothing else changes. *)
Theorem digits_reach_one_engine
    (s : Session) (digits : list string)
    (Hlive : inert s = false) (Hquiet : isAudioPlaying s = false)
    (Hdigits : digits <> []) :
  press s digits =
    set_dtmfService
      (Some {| dtmf_state := Capturing;
               dtmf_digits := dtmf_backlog (dtmfService s) ++ digits |})
      (if isCapturingDTMF s then s
       else set_asrService None (set_isCapturingDTMF true s)).
Proof.
  revert s Hlive Hquiet Hdigits.
  induction digits as [|digit digits IH]; intros s Hi Hp Hne; [done|].
  change (press s (digit :: digits))
    with (press (after (processDTMF digit) s) digits).
  unfold after. rewrite processDTMF_capturing by assumption. cbn [snd].
  destruct digits as [|digit' digits]; [reflexivity|].
  rewrite IH; [| |  |done].
  - destruct (isCapturingDTMF s) eqn:Hd; simpl; rewrite ?Hd;
      by rewrite <- app_assoc.
  - unfold inert in *. by destruct (isCapturingDTMF s).
  - by destruct (isCapturingDTMF s).
Qed.

(** The property on the example call: a speech engine is live when the
    caller enters 1, 2, 3. *)
Lemma digits_reach_one_engine_witness :
  let speaking :=
    run example_session
      [TextMessage (inbound 1 "open" ""); BinaryMessage [Byte.x10]] in
  dtmfService (press speaking ["1"; "2"; "3"]) =
    Some {| dtmf_state := Capturing; dtmf_digits := ["1"; "2"; "3"] |} /\
  asrService (press speaking ["1"; "2"; "3"]) = None /\
  isCapturingDTMF (press speaking ["1"; "2"; "3"]) = true.
Proof.
  intros speaking.
  rewrite (digits_reach_one_engine speaking ["1"; "2"; "3"]);
    [| vm_compute; reflexivity | vm_compute; reflexivity | discriminate].
  vm_compute. auto.
Defined.

(* --------------------------------------------------------------------- *)

(** X10. [send] writes its log line before it writes to the socket, and for
    an event envelope the line reads the type of the first entity.  An event
    envelope without entities therefore makes [send] throw with nothing put
    on the socket, while [createMessage] has already used up a sequence
    number: the envelope sent next skips that number. *)
Theorem event_without_entity_leaves_gap (s : Session) :
  let s1 := after (message <- createMessage "event" (EventParameters []) ;;
                   send message) s in
  fst ((message <- createMessage "event" (EventParameters []) ;;
        send message) s) = Raise /\
  sent (ws s1) = sent (ws s) /\
  lastServerSequenceNumber s1 = lastServerSequenceNumber s + 1 /\
  sent (ws (after sendClosed s1)) =
    (sent (ws s) ++
     [TextFrame {| sm_id := clientSessionId s; sm_version := "2";
                   sm_seq := lastServerSequenceNumber s + 2;
                   sm_clientseq := lastClientSequenceNumber s;
                   sm_type := "closed";
                   sm_parameters := EmptyParameters |}])%list.
Proof.
  intros s1. subst s1. unfold after.
  rewrite sendClosed_eq. unfold bind. rewrite createMessage_eq.
  unfold send. simpl. split_and!; try reflexivity.
  unfold stamped. simpl. do 4 f_equal. lia.
Qed.

(* --------------------------------------------------------------------- *)

(** X20. A closed session ignores its socket: text envelopes, audio frames
    and further close events leave every field as it is, so nothing is
    validated, dispatched or sent any more. *)
Theorem closed_session_ignores_socket (s : Session) (es : list Event)
    (Hclosed : closed s = true)
    (Hsocket : forallb from_socket es = true) :
  run s es = s.
Proof.
  induction es as [|e es IH]; [done|].
  simpl in Hsocket. apply andb_prop in Hsocket as [He Hes].
  change (run s (e :: es)) with (run (step s e) es).
  assert (Hstep : step s e = s).
  { destruct e; try discriminate; simpl; unfold after.
    - by rewrite processTextMessage_closed.
    - rewrite processBinaryMessage_inert; [done|].
      apply shut_inert. by right.
    - by rewrite close_when_closed. }
  rewrite Hstep. by apply IH.
Qed.

(** The property on the example call after its close. *)
Lemma closed_session_ignores_socket_witness :
  run closed_while_bot_thinks
    [TextMessage (inbound 2 "ping" ""); BinaryMessage [Byte.x10];
     SocketClosed; TextMessage (inbound 2 "close" "")]
  = closed_while_bot_thinks.
Proof.
  apply (closed_session_ignores_socket closed_while_bot_thinks); reflexivity.
Defined.

Lemma handled_in_order_same (s s' : Session) :
  inbound_same s s' -> handled_in_order s -> handled_in_order s'.
Proof.
  intros (Hc & Hh & Hi & _) [Hs Hf]. unfold handled_in_order.
  by rewrite Hc, Hh, Hi.
Qed.

Lemma handled_in_order_bump (s : Session) (n : Z) :
  lastClientSequenceNumber s <= n ->
  handled_in_order s ->
  handled_in_order (set_lastClientSequenceNumber n s).
Proof.
  intros Hn [Hs Hf]. split; [exact Hs|]. simpl.
  eapply Forall_impl; [exact Hf|]. simpl. intros m [Hm Hid]. split; [lia|done].
Qed.

Lemma processTextMessage_in_order (message : ClientMessage) (s : Session) :
  handled_in_order s ->
  handled_in_order (after (processTextMessage message) s).
Proof.
  intros HI. unfold after. destruct (closed s) eqn:Hc.
  { by rewrite processTextMessage_closed. }
  rewrite (processTextMessage_open message s Hc). unfold validate.
  destruct (Z.eqb_spec (cm_seq message) (lastClientSequenceNumber s + 1))
    as [Heq|Hne]; simpl.
  2:{ eapply handled_in_order_same; [|exact HI]. by repeat split. }
  assert (HI' : handled_in_order
                  (set_lastClientSequenceNumber (cm_seq message) s))
    by (apply handled_in_order_bump; [lia | exact HI]).
  destruct (_ <? _)%Z; simpl.
  { eapply handled_in_order_same; [|exact HI']. by repeat split. }
  destruct (String.eqb_spec (cm_id message) (clientSessionId s))
    as [Hid|Hid]; simpl.
  2:{ eapply handled_in_order_same; [|exact HI']. by repeat split. }
  destruct (messageHandlerRegistry s !! cm_type message) as [handler|];
    [|exact HI'].
  unfold handleMessage. unfold bind at 1. unfold assign at 1.
  eapply handled_in_order_same; [apply exec_calls_inbound_same|].
  destruct HI as [Hs Hf]. split; simpl.
  - rewrite fmap_app. simpl.
    apply StronglySorted_app_2; [| exact Hs | repeat constructor].
    intros x y Hx Hy. apply list_elem_of_fmap in Hx as (m & -> & Hm).
    apply list_elem_of_singleton in Hy as ->.
    rewrite Forall_forall in Hf. destruct (Hf m Hm) as [Hle _]. lia.
  - apply Forall_app. split.
    + eapply Forall_impl; [exact Hf|]. simpl. intros m [Hm Hi].
      split; [lia|done].
    + repeat constructor; [lia|done].
Qed.

Lemma step_in_order (s : Session) (e : Event) :
  handled_in_order s -> handled_in_order (step s e).
Proof.
  intros HI. destruct (is_text e) eqn:Ht.
  - destruct e; try discriminate. simpl.
    by apply processTextMessage_in_order.
  - eapply handled_in_order_same; [|exact HI].
    by apply step_other_inbound_same.
Qed.

(** X21. In every state a session reaches from its construction, the
    envelopes that were handed to handlers carry strictly increasing sequence
    numbers, none above the inbound counter, and the session's identifier: no
    envelope is dispatched twice or out of order. *)
Theorem handlers_see_envelopes_in_order
    (registry : gmap string MessageHandler) (w : WebSocket)
    (sessionId url_ : string) (es : list Event) :
  let s := run (new_Session registry w sessionId url_) es in
  StronglySorted Z.lt (cm_seq <$> handled s) /\
  Forall (fun m => cm_seq m <= lastClientSequenceNumber s /\
                   cm_id m = clientSessionId s) (handled s).
Proof.
  intros s. subst s.
  change (handled_in_order (run (new_Session registry w sessionId url_) es)).
  assert (H0 : handled_in_order (new_Session registry w sessionId url_))
    by (split; constructor).
  revert H0. generalize (new_Session registry w sessionId url_).
  induction es as [|e es IH]; intros s HI; [exact HI|].
  change (run s (e :: es)) with (run (step s e) es).
  apply IH. by apply step_in_order.
Qed.

(* ===================================================================== *)
(** ** The bot gateway *)
(* ===================================================================== *)

Import Services.

Lemma qualifies_true (seen : gset string) (a : Activity) :
  qualifies seen a = true ->
  exists t, act_text a = Some t /\ truthy_string t = true /\
            (act_id a ∉ seen) /\ act_from a <> Some "user".
Proof.
  unfold qualifies. intros H.
  apply andb_prop in H as [H Ht]. apply andb_prop in H as [Hs Hu].
  apply negb_true_iff, bool_decide_eq_false in Hs.
  apply negb_true_iff, bool_decide_eq_false in Hu.
  destruct (act_text a) as [t|]; [|discriminate]. eauto.
Qed.

Lemma qualifies_seen (seen : gset string) (a : Activity) :
  act_id a ∈ seen -> qualifies seen a = false.
Proof.
  intros H. unfold qualifies. by rewrite (bool_decide_eq_true_2 _ H).
Qed.

Lemma truthy_string_nonempty (t : string) :
  truthy_string t = true -> t <> "".
Proof. by destruct t. Qed.

Lemma scan_none (seen : gset string) (acts : list Activity) :
  Forall (fun a => qualifies seen a = false) acts ->
  scan seen acts = ("", seen).
Proof.
  induction 1 as [|a acts Ha _ IH]; simpl; [done|]. by rewrite Ha.
Qed.

Lemma scan_first (seen : gset string) (pre post : list Activity)
    (a : Activity) :
  Forall (fun b => qualifies seen b = false) pre ->
  qualifies seen a = true ->
  scan seen (pre ++ a :: post) =
    (default "" (act_text a), {[act_id a]} ∪ seen).
Proof.
  induction 1 as [|b pre Hb _ IH]; simpl; intros Ha.
  - by rewrite Ha.
  - rewrite Hb. by apply IH.
Qed.

Lemma scan_cases (seen : gset string) (acts : list Activity) :
  Forall (fun a => qualifies seen a = false) acts \/
  exists pre a post,
    acts = (pre ++ a :: post)%list /\
    Forall (fun b => qualifies seen b = false) pre /\
    qualifies seen a = true.
Proof.
  induction acts as [|a acts IH]; [left; constructor|].
  destruct (qualifies seen a) eqn:Ha.
  - right. exists [], a, acts. by repeat split.
  - destruct IH as [IH|(pre & b & post & -> & Hpre & Hb)].
    + left. by constructor.
    + right. exists (a :: pre), b, post. repeat split; [|done].
      by constructor.
Qed.

(** What [poll] does on each shape of the answers it gets. *)
Lemma poll_quiet (seen : gset string) (quiet : list (list Activity))
    (fetches : list Fetch) :
  Forall (Forall (fun b => qualifies seen b = false)) quiet ->
  poll seen ((Fetched <$> quiet) ++ fetches) = poll seen fetches.
Proof.
  induction 1 as [|acts quiet Hacts _ IH]; simpl; [done|].
  by rewrite (scan_none seen acts Hacts).
Qed.

Lemma poll_cases (seen : gset string) (fetches : list Fetch) :
  exists quiet,
    Forall (Forall (fun b => qualifies seen b = false)) quiet /\
    (fetches = (Fetched <$> quiet) \/
     (exists rest, fetches = ((Fetched <$> quiet) ++ FetchFailed :: rest)%list) \/
     (exists pre a post rest,
        fetches = ((Fetched <$> quiet)
                     ++ Fetched (pre ++ a :: post) :: rest)%list /\
        Forall (fun b => qualifies seen b = false) pre /\
        qualifies seen a = true)).
Proof.
  induction fetches as [|[acts|] fetches IH].
  - exists []. split; [constructor | by left].
  - destruct (scan_cases seen acts) as [Hq|(pre & a & post & -> & Hpre & Ha)].
    + destruct IH as (quiet & Hquiet & Hshape).
      exists (acts :: quiet). split; [by constructor|].
      destruct Hshape as [->|[(rest & ->)|(pre & a & post & rest & -> & H)]].
      * by left.
      * right. left. by exists rest.
      * right. right. by exists pre, a, post, rest.
    + exists []. split; [constructor|].
      right. right. by exists pre, a, post, fetches.
  - exists []. split; [constructor|]. right. left. by exists fetches.
Qed.

Lemma poll_found (seen : gset string) (quiet : list (list Activity))
    (pre post : list Activity) (a : Activity) (rest : list Fetch) :
  Forall (Forall (fun b => qualifies seen b = false)) quiet ->
  Forall (fun b => qualifies seen b = false) pre ->
  qualifies seen a = true ->
  poll seen ((Fetched <$> quiet) ++ Fetched (pre ++ a :: post) :: rest) =
    (Resolved (default "" (act_text a)), {[act_id a]} ∪ seen, rest).
Proof.
  intros Hquiet Hpre Ha. rewrite poll_quiet by done. simpl.
  rewrite scan_first by done.
  destruct (qualifies_true seen a Ha) as (t & -> & Ht & _). simpl.
  by rewrite Ht.
Qed.

Lemma poll_waiting (seen : gset string) (quiet : list (list Activity)) :
  Forall (Forall (fun b => qualifies seen b = false)) quiet ->
  poll seen (Fetched <$> quiet) = (Pending, seen, []).
Proof.
  intros Hquiet. rewrite <- (app_nil_r (Fetched <$> quiet)).
  by rewrite poll_quiet.
Qed.

Lemma poll_failed (seen : gset string) (quiet : list (list Activity))
    (rest : list Fetch) :
  Forall (Forall (fun b => qualifies seen b = false)) quiet ->
  poll seen ((Fetched <$> quiet) ++ FetchFailed :: rest) =
    (Rejected, seen, rest).
Proof. intros Hquiet. by rewrite poll_quiet. Qed.

Lemma poll_resolved (seen seen' : gset string) (fetches rest : list Fetch)
    (reply : string) :
  poll seen fetches = (Resolved reply, seen', rest) ->
  exists quiet pre a post,
    fetches = ((Fetched <$> quiet)
                 ++ Fetched (pre ++ a :: post) :: rest)%list /\
    Forall (Forall (fun b => qualifies seen b = false)) quiet /\
    Forall (fun b => qualifies seen b = false) pre /\
    qualifies seen a = true /\
    act_text a = Some reply /\
    seen' = {[act_id a]} ∪ seen.
Proof.
  intros Hpoll.
  destruct (poll_cases seen fetches)
    as (quiet & Hquiet &
        [->|[(rest' & ->)|(pre & a & post & rest' & -> & Hpre & Ha)]]).
  - by rewrite poll_waiting in Hpoll.
  - by rewrite poll_failed in Hpoll.
  - rewrite poll_found in Hpoll by done.
    destruct (qualifies_true seen a Ha) as (t & Ht & _).
    rewrite Ht in Hpoll. simpl in Hpoll. injection Hpoll as <- <- <-.
    by exists quiet, pre, a, post.
Qed.

Lemma fetched_app (xs ys : list Fetch) :
  fetched (xs ++ ys) = (fetched xs ++ fetched ys)%list.
Proof.
  induction xs as [|[acts|] xs IH]; simpl; [done | | done].
  by rewrite IH, app_assoc.
Qed.

Lemma elem_of_fetched (quiet : list (list Activity))
    (pre post : list Activity) (a : Activity) (rest : list Fetch) :
  a ∈ fetched ((Fetched <$> quiet) ++ Fetched (pre ++ a :: post) :: rest).
Proof.
  rewrite fetched_app. simpl. rewrite !elem_of_app, elem_of_cons. tauto.
Qed.

(** X11. When the polling loop resolves, the text it returns is that of an
    activity which was not seen before, is not from 'user' and has a
    non-empty text: the first such activity of the first fetch that has one.
    Exactly that activity's identifier is added to the seen set, and the
    fetches after it are left for the next call. *)
Theorem poll_returns_first_new_bot_message
    (seen seen' : gset string) (fetches rest : list Fetch) (reply : string)
    (Hpoll : poll seen fetches = (Resolved reply, seen', rest)) :
  exists quiet pre a post,
    fetches = ((Fetched <$> quiet)
                 ++ Fetched (pre ++ a :: post) :: rest)%list /\
    Forall (Forall (fun b => qualifies seen b = false)) quiet /\
    Forall (fun b => qualifies seen b = false) pre /\
    act_text a = Some reply /\ reply <> "" /\
    (act_id a ∉ seen) /\ act_from a <> Some "user" /\
    seen' = {[act_id a]} ∪ seen.
Proof.
  destruct (poll_resolved _ _ _ _ _ Hpoll)
    as (quiet & pre & a & post & Hshape & Hquiet & Hpre & Ha & Ht & Hseen).
  destruct (qualifies_true seen a Ha) as (t & Ht' & Htruthy & Hnew & Hfrom).
  exists quiet, pre, a, post. split_and!; try done.
  rewrite Ht in Ht'. injection Ht' as ->.
  by apply truthy_string_nonempty.
Qed.

(** The property on the example conversation: the update and the welcome
    are seen, the caller's own message is skipped. *)
Lemma poll_returns_first_new_bot_message_witness :
  exists quiet pre a post,
    [Fetched [conversation_update; bot_welcome; user_hello];
     Fetched [conversation_update; bot_welcome; user_hello; bot_answer;
              bot_followup]]
    = ((Fetched <$> quiet) ++ Fetched (pre ++ a :: post) :: [])%list /\
    act_text a = Some "How can I help?" /\
    ({[act_id a]} ∪ {["A0"; "A1"]} : gset string) = {["A3"]} ∪ {["A0"; "A1"]}.
Proof.
  destruct (poll_returns_first_new_bot_message {["A0"; "A1"]}
              ({["A3"]} ∪ {["A0"; "A1"]})
              [Fetched [conversation_update; bot_welcome; user_hello];
               Fetched [conversation_update; bot_welcome; user_hello;
                        bot_answer; bot_followup]]
              [] "How can I help?")
    as (quiet & pre & a & post & Hshape & _ & _ & Ht & _ & _ & _ & Hseen).
  { vm_compute. reflexivity. }
  exists quiet, pre, a, post. split; [exact Hshape|].
  split; [exact Ht|]. symmetry. exact Hseen.
Defined.

(** X12. The polling loop goes on for as long as the fetches succeed and bring
    nothing new from the bot, leaving the seen set as it is; it rejects at
    the first fetch that fails; and it resolves at the first fetch that brings
    an unseen activity with text that is not from 'user', with that text. *)
Theorem poll_ends_with_first_answer
    (seen : gset string) (quiet : list (list Activity))
    (Hquiet : Forall (Forall (fun b => qualifies seen b = false)) quiet) :
  poll seen (Fetched <$> quiet) = (Pending, seen, []) /\
  (forall rest,
     poll seen ((Fetched <$> quiet) ++ FetchFailed :: rest) =
       (Rejected, seen, rest)) /\
  (forall pre a post rest,
     Forall (fun b => qualifies seen b = false) pre ->
     qualifies seen a = true ->
     poll seen ((Fetched <$> quiet) ++ Fetched (pre ++ a :: post) :: rest) =
       (Resolved (default "" (act_text a)), {[act_id a]} ∪ seen, rest)).
Proof.
  split_and!.
  - by apply poll_waiting.
  - intros rest. by apply poll_failed.
  - intros pre a post rest Hpre Ha. by apply poll_found.
Qed.

(** The property on the example conversation, two rounds with nothing new
    and then the answer. *)
Lemma poll_ends_with_first_answer_witness :
  poll {["A0"; "A1"]}
    (Fetched <$> [[conversation_update; bot_welcome];
                  [conversation_update; bot_welcome; user_hello]])
  = (Pending, {["A0"; "A1"]}, []) /\
  poll {["A0"; "A1"]}
    ((Fetched <$> [[conversation_update; bot_welcome];
                   [conversation_update; bot_welcome; user_hello]])
     ++ Fetched ([conversation_update; bot_welcome; user_hello]
                   ++ bot_answer :: [bot_followup]) :: [])
  = (Resolved "How can I help?", {["A3"]} ∪ {["A0"; "A1"]}, []).
Proof.
  destruct (poll_ends_with_first_answer {["A0"; "A1"]}
              [[conversation_update; bot_welcome];
               [conversation_update; bot_welcome; user_hello]])
    as (Hwait & _ & Hfound).
  { repeat constructor. }
  split; [exact Hwait|].
  apply (Hfound [conversation_update; bot_welcome; user_hello] bot_answer
           [bot_followup] []).
  - repeat constructor.
  - vm_compute. reflexivity.
Defined.

Lemma speak_resolved (voice : string -> Synthesis) (reply : string)
    (r : BotResponse) :
  speak voice reply = Resolved r ->
  exists audio,
    getAudioBytes voice reply = Resolved audio /\
    r = withAudioBytes audio (withConfidence 1%Q (new_BotResponse match_ reply)).
Proof.
  unfold speak. destruct (getAudioBytes voice reply) as [audio| |];
    [|discriminate..].
  intros [= <-]. eauto.
Qed.

Lemma getBotResponse_resolved (voice : string -> Synthesis) (posted : bool)
    (userInput : string) (bot bot' : BotResource) (line line' : DirectLine)
    (r : BotResponse) :
  getBotResponse voice posted userInput bot line = (Resolved r, bot', line') ->
  posted = true /\
  posts line' = (posts line ++ [userInput])%list /\
  conversationId bot' = conversationId bot /\
  exists reply audio,
    poll (seenActivityIds bot) (feed line) =
      (Resolved reply, seenActivityIds bot', feed line') /\
    getAudioBytes voice reply = Resolved audio /\
    r = withAudioBytes audio (withConfidence 1%Q (new_BotResponse match_ reply)).
Proof.
  unfold getBotResponse. destruct posted; [|discriminate].
  destruct (poll (seenActivityIds bot) (feed line)) as [[reply seen'] rest'].
  destruct reply as [reply| |]; [|discriminate..].
  intros [= Hs <- <-]. destruct (speak_resolved _ _ _ Hs) as (audio & Ha & ->).
  split_and!; try done. by exists reply, audio.
Qed.

(** X13. The gateway never answers with the same activity twice.  When two
    calls of [getBotResponse] in a row both resolve, each answer is the text
    of an activity from the fetches of its own call, and the two activities
    have different identifiers; the seen set only grows. *)
Theorem no_activity_answered_twice
    (voice : string -> Synthesis) (posted1 posted2 : bool)
    (input1 input2 : string)
    (bot bot1 bot2 : BotResource) (line line1 line2 : DirectLine)
    (r1 r2 : BotResponse)
    (Hfirst : getBotResponse voice posted1 input1 bot line =
                (Resolved r1, bot1, line1))
    (Hsecond : getBotResponse voice posted2 input2 bot1 line1 =
                 (Resolved r2, bot2, line2)) :
  exists a1 a2,
    a1 ∈ fetched (feed line) /\ act_text a1 = Some (text r1) /\
    a2 ∈ fetched (feed line1) /\ act_text a2 = Some (text r2) /\
    act_id a1 <> act_id a2 /\
    seenActivityIds bot ⊆ seenActivityIds bot1 /\
    seenActivityIds bot1 ⊆ seenActivityIds bot2.
Proof.
  destruct (getBotResponse_resolved _ _ _ _ _ _ _ _ Hfirst)
    as (_ & _ & _ & reply1 & audio1 & Hp1 & _ & ->).
  destruct (getBotResponse_resolved _ _ _ _ _ _ _ _ Hsecond)
    as (_ & _ & _ & reply2 & audio2 & Hp2 & _ & ->).
  destruct (poll_resolved _ _ _ _ _ Hp1)
    as (q1 & pre1 & a1 & post1 & Hs1 & _ & _ & Hq1 & Ht1 & Hseen1).
  destruct (poll_resolved _ _ _ _ _ Hp2)
    as (q2 & pre2 & a2 & post2 & Hs2 & _ & _ & Hq2 & Ht2 & Hseen2).
  destruct (qualifies_true _ _ Hq2) as (_ & _ & _ & Hnew2 & _).
  exists a1, a2. split_and!.
  - rewrite Hs1. apply elem_of_fetched.
  - exact Ht1.
  - rewrite Hs2. apply elem_of_fetched.
  - exact Ht2.
  - intros Heq. apply Hnew2. rewrite Hseen1, <- Heq.
    apply elem_of_union_l. by apply elem_of_singleton.
  - rewrite Hseen1. apply union_subseteq_r.
  - rewrite Hseen2. apply union_subseteq_r.
Qed.

(** The property on the example conversation: two turns, the answer and
    then the follow-up. *)
Lemma no_activity_answered_twice_witness :
  exists a1 a2,
    act_text a1 = Some "How can I help?" /\
    act_text a2 = Some "Are you there?" /\
    act_id a1 <> act_id a2.
Proof.
  destruct (no_activity_answered_twice example_voice true true
              "hello" "still there"
              {| conversationId := "c1"; seenActivityIds := {["A0"; "A1"]} |}
              {| conversationId := "c1";
                 seenActivityIds := {["A3"]} ∪ {["A0"; "A1"]} |}
              {| conversationId := "c1";
                 seenActivityIds := {["A4"]} ∪ ({["A3"]} ∪ {["A0"; "A1"]}) |}
              {| posts := [];
                 feed := [Fetched [bot_welcome; user_hello; bot_answer];
                          Fetched [bot_welcome; user_hello; bot_answer;
                                   bot_followup]] |}
              {| posts := ["hello"];
                 feed := [Fetched [bot_welcome; user_hello; bot_answer;
                                   bot_followup]] |}
              {| posts := ["hello"; "still there"]; feed := [] |}
              (withAudioBytes [Byte.x01; Byte.x02]
                 (withConfidence 1%Q
                    (new_BotResponse match_ "How can I help?")))
              (withAudioBytes [Byte.x01; Byte.x02]
                 (withConfidence 1%Q
                    (new_BotResponse match_ "Are you there?"))))
    as (a1 & a2 & _ & H1 & _ & H2 & Hne & _).
  - vm_compute. reflexivity.
  - vm_compute. reflexivity.
  - exists a1, a2. auto.
Defined.

(* --------------------------------------------------------------------- *)

Lemma mark_seen (existing : list Activity) :
  forall seen : gset string,
    foldl (fun seen a => {[act_id a]} ∪ seen) seen existing =
      list_to_set (act_id <$> existing) ∪ seen.
Proof.
  induction existing as [|a existing IH]; intros seen; simpl.
  - by rewrite (left_id_L ∅ (∪)).
  - rewrite IH. rewrite (assoc_L (∪)).
    by rewrite (comm_L (∪) (list_to_set (act_id <$> existing))).
Qed.

Lemma getInitialResponse_resolved (voice : string -> Synthesis)
    (started : option string) (bot bot' : BotResource)
    (line line' : DirectLine) (r : BotResponse) :
  getInitialResponse voice started bot line = (Resolved r, bot', line') ->
  exists conversation existing rest welcome audio,
    started = Some conversation /\
    conversationId bot' = conversation /\
    feed line = Fetched existing :: rest /\
    posts line' = posts line /\
    poll (list_to_set (act_id <$> existing) ∪ seenActivityIds bot) rest =
      (Resolved welcome, seenActivityIds bot', feed line') /\
    getAudioBytes voice welcome = Resolved audio /\
    r = withAudioBytes audio
          (withConfidence 1%Q (new_BotResponse match_ welcome)).
Proof.
  unfold getInitialResponse. destruct started as [conversation|];
    [|discriminate].
  destruct (feed line) as [|[existing|] rest] eqn:Hfeed; [discriminate| |].
  - simpl. rewrite mark_seen.
    destruct (poll _ rest) as [[welcome seen'] rest'] eqn:Hpoll.
    destruct welcome as [welcome| |]; [|discriminate..].
    intros [= Hs <- <-]. destruct (speak_resolved _ _ _ Hs) as (audio & Ha & ->).
    exists conversation, existing, rest, welcome, audio. by split_and!.
  - discriminate.
Qed.

(** X14. [getInitialResponse] marks every activity of its first fetch as
    seen before it starts polling.  So the greeting it resolves with is never
    one of those activities, not even a bot message with text that was
    already there: it is the text of an activity from a later fetch whose
    identifier is none of the first fetch's. *)
Theorem greeting_is_never_an_existing_activity
    (voice : string -> Synthesis) (started : option string)
    (bot bot' : BotResource) (line line' : DirectLine) (r : BotResponse)
    (Hgreet : getInitialResponse voice started bot line =
                (Resolved r, bot', line')) :
  exists existing rest a,
    feed line = Fetched existing :: rest /\
    a ∈ fetched rest /\
    act_text a = Some (text r) /\
    (act_id a ∉ (act_id <$> existing)) /\
    (act_id a ∉ seenActivityIds bot) /\
    Forall (fun e => act_id e ∈ seenActivityIds bot') existing /\
    act_id a ∈ seenActivityIds bot'.
Proof.
  destruct (getInitialResponse_resolved _ _ _ _ _ _ _ Hgreet)
    as (conv & existing & rest & welcome & audio
        & _ & _ & Hfeed & _ & Hpoll & _ & ->).
  destruct (poll_resolved _ _ _ _ _ Hpoll)
    as (quiet & pre & a & post & Hshape & _ & _ & Hq & Ht & Hseen).
  destruct (qualifies_true _ _ Hq) as (_ & _ & _ & Hnew & _).
  exists existing, rest, a. split_and!.
  - exact Hfeed.
  - rewrite Hshape. apply elem_of_fetched.
  - exact Ht.
  - intros Hin. apply Hnew. apply elem_of_union_l.
    by apply elem_of_list_to_set.
  - intros Hin. apply Hnew. by apply elem_of_union_r.
  - apply Forall_forall. intros e He. rewrite Hseen.
    apply elem_of_union_r, elem_of_union_l, elem_of_list_to_set.
    by apply list_elem_of_fmap_2.
  - rewrite Hseen. apply elem_of_union_l. by apply elem_of_singleton.
Qed.

(** The property on the example conversation: the welcome is already there
    at the first fetch, so the greeting is the bot's next message. *)
Lemma greeting_is_never_an_existing_activity_witness :
  exists a,
    act_text a = Some "How can I help?" /\
    (act_id a ∉ (act_id <$> [conversation_update; bot_welcome])).
Proof.
  destruct (greeting_is_never_an_existing_activity example_voice (Some "c1")
              new_BotResource
              {| conversationId := "c1";
                 seenActivityIds :=
                   {["A3"]} ∪ ({["A1"]} ∪ ({["A0"]} ∪ ∅)) |}
              {| posts := [];
                 feed := [Fetched [conversation_update; bot_welcome];
                          Fetched [conversation_update; bot_welcome];
                          Fetched [conversation_update; bot_welcome;
                                   bot_answer]] |}
              {| posts := []; feed := [] |}
              (withAudioBytes [Byte.x01; Byte.x02]
                 (withConfidence 1%Q
                    (new_BotResponse match_ "How can I help?"))))
    as (existing & rest & a & Hfeed & _ & Ht & Hnot & _).
  - vm_compute. reflexivity.
  - simpl in Hfeed. injection Hfeed as <- _. exists a. auto.
Defined.

(* --------------------------------------------------------------------- *)

Lemma turn_stages_open (response : BotResponse) (s : Session) :
  endSession response = None ->
  exists s',
    sent (ws s') =
      (sent (ws s) ++ turn_event s response ++ turn_audio response)%list /\
    disconnecting s' = disconnecting s /\
    forall k : M unit,
      (when (truthy_string (text response))
         (sendTurnResponse (disposition response) (text response)
            (confidence response)) ;;
       when_some (audioBytes response) sendAudio ;;
       when (truthy_flag (endSession response))
         (sendDisconnect "completed" "" ∅) ;;
       k) s = k s'.
Proof.
  unfold turn_event, turn_audio.
  destruct response as [d t c a e]. simpl. intros ->.
  unfold bind, when, when_some, ret. simpl.
  destruct (truthy_string t), a as [bytes|];
    rewrite ?sendTurnResponse_eq, ?sendAudio_frames;
    eexists; (split; [|split; [|intros k; reflexivity]]); simpl;
    rewrite ?app_nil_r, <- ?app_assoc; reflexivity.
Qed.

(** X15. Every response [getBotResponse] resolves with has disposition
    match, confidence 1, a non-empty text, audio bytes, and no [endSession].
    Handed to the session's reply callbacks it is therefore always emitted as
    one bot_turn_response event followed by the audio frames, and never as a
    disconnect: with this gateway the bot cannot end the session. *)
Theorem gateway_replies_never_end_session
    (voice : string -> Synthesis) (posted : bool) (userInput : string)
    (bot bot' : BotResource) (line line' : DirectLine) (r : BotResponse)
    (s : Session)
    (Hreply : getBotResponse voice posted userInput bot line =
                (Resolved r, bot', line')) :
  disposition r = match_ /\ confidence r = Some 1%Q /\
  is_Some (audioBytes r) /\ endSession r = None /\ text r <> "" /\
  sent (ws (after (onSpeechReply r) s)) =
    (sent (ws s) ++
     TextFrame (stamped s "event"
       (EventParameters
          [EventEntityBotTurnResponse match_ (text r) (Some 1%Q)]))
     :: turn_audio r)%list /\
  disconnecting (after (onSpeechReply r) s) = disconnecting s /\
  sent (ws (after (onDigitsReply r) s)) =
    (sent (ws s) ++
     TextFrame (stamped s "event"
       (EventParameters
          [EventEntityBotTurnResponse match_ (text r) (Some 1%Q)]))
     :: turn_audio r)%list /\
  disconnecting (after (onDigitsReply r) s) = disconnecting s.
Proof.
  destruct (getBotResponse_resolved _ _ _ _ _ _ _ _ Hreply)
    as (_ & _ & _ & reply & audio & Hpoll & _ & ->).
  destruct (poll_resolved _ _ _ _ _ Hpoll)
    as (quiet & pre & a & post & _ & _ & _ & Hq & Ht & _).
  destruct (qualifies_true _ _ Hq) as (t & Ht' & Htruthy & _).
  rewrite Ht in Ht'. injection Ht' as ->.
  set (r := withAudioBytes audio
              (withConfidence 1%Q (new_BotResponse match_ t))).
  assert (Hevent : turn_event s r =
            [TextFrame (stamped s "event"
               (EventParameters
                  [EventEntityBotTurnResponse match_ t (Some 1%Q)]))]).
  { unfold turn_event. simpl. by rewrite Htruthy. }
  destruct (turn_stages_open r s eq_refl) as (s' & Hsent & Hdisc & Hrun).
  rewrite Hevent in Hsent. simpl in Hsent.
  assert (Hspeech : onSpeechReply r s = (Return tt, s')).
  { etransitivity; [|apply (Hrun (ret tt))]. unfold onSpeechReply.
    apply bind_ext. intros _ s1. apply bind_ext. intros _ s2.
    symmetry. apply bind_ret_unit. }
  split_and!.
  - reflexivity.
  - reflexivity.
  - by eexists.
  - reflexivity.
  - by apply truthy_string_nonempty.
  - unfold after. by rewrite Hspeech.
  - unfold after. by rewrite Hspeech.
  - unfold after, onDigitsReply. by rewrite Hrun.
  - unfold after, onDigitsReply. by rewrite Hrun.
Qed.

(** The property on the example conversation and the example call. *)
Lemma gateway_replies_never_end_session_witness :
  disconnecting
    (after (onSpeechReply
              (withAudioBytes [Byte.x01; Byte.x02]
                 (withConfidence 1%Q
                    (new_BotResponse match_ "How can I help?"))))
       bot_chosen) = false.
Proof.
  destruct (gateway_replies_never_end_session example_voice true "hello"
              {| conversationId := "c1"; seenActivityIds := {["A0"; "A1"]} |}
              {| conversationId := "c1";
                 seenActivityIds := {["A3"]} ∪ {["A0"; "A1"]} |}
              {| posts := [];
                 feed := [Fetched [bot_welcome; user_hello; bot_answer]] |}
              {| posts := ["hello"]; feed := [] |}
              (withAudioBytes [Byte.x01; Byte.x02]
                 (withConfidence 1%Q
                    (new_BotResponse match_ "How can I help?")))
              bot_chosen)
    as (_ & _ & _ & _ & _ & _ & Hd & _).
  - vm_compute. reflexivity.
  - rewrite Hd. reflexivity.
Defined.

(** X16. When the synthesis of a reply fails, [getBotResponse] rejects, but
    the reply's activity has already been marked as seen and the caller's
    input has been posted: the reply is used up and no later poll returns
    it. *)
Theorem failed_synthesis_uses_up_reply
    (voice : string -> Synthesis) (userInput reply : string)
    (bot : BotResource) (line : DirectLine)
    (seen' : gset string) (rest : list Fetch)
    (Hpoll : poll (seenActivityIds bot) (feed line) =
               (Resolved reply, seen', rest))
    (Hvoice : getAudioBytes voice reply = Rejected) :
  getBotResponse voice true userInput bot line =
    (Rejected,
     {| conversationId := conversationId bot; seenActivityIds := seen' |},
     {| posts := posts line ++ [userInput]; feed := rest |}) /\
  exists a,
    a ∈ fetched (feed line) /\ act_text a = Some reply /\
    act_id a ∈ seen' /\
    forall b, act_id b = act_id a -> qualifies seen' b = false.
Proof.
  split.
  - unfold getBotResponse. rewrite Hpoll. unfold speak. by rewrite Hvoice.
  - destruct (poll_resolved _ _ _ _ _ Hpoll)
      as (quiet & pre & a & post & Hshape & _ & _ & _ & Ht & ->).
    assert (Hin : act_id a ∈ ({[act_id a]} ∪ seenActivityIds bot))
      by (apply elem_of_union_l; by apply elem_of_singleton).
    exists a. split_and!.
    + rewrite Hshape. apply elem_of_fetched.
    + exact Ht.
    + exact Hin.
    + intros b Hb. apply qualifies_seen. by rewrite Hb.
Qed.

(** The property on the example conversation with a synthesizer that
    reports an error. *)
Lemma failed_synthesis_uses_up_reply_witness :
  getBotResponse broken_voice true "hello"
    {| conversationId := "c1"; seenActivityIds := {["A0"; "A1"]} |}
    {| posts := [];
       feed := [Fetched [bot_welcome; user_hello; bot_answer]] |}
  = (Rejected,
     {| conversationId := "c1";
        seenActivityIds := {["A3"]} ∪ {["A0"; "A1"]} |},
     {| posts := ["hello"]; feed := [] |}).
Proof.
  apply (failed_synthesis_uses_up_reply broken_voice "hello"
           "How can I help?"
           {| conversationId := "c1"; seenActivityIds := {["A0"; "A1"]} |}
           {| posts := [];
              feed := [Fetched [bot_welcome; user_hello; bot_answer]] |}).
  - vm_compute. reflexivity.
  - reflexivity.
Defined.

(* ===================================================================== *)
(** ** The plain audio server *)
(* ===================================================================== *)

Lemma refused_step (c : Server.Connection) (e : Server.Event) :
  Server.wired c = false -> Server.step c e = c.
Proof. intros H. unfold Server.step. by rewrite H. Qed.

Lemma refused_run (es : list Server.Event) (c : Server.Connection) :
  Server.wired c = false -> Server.run c es = c.
Proof.
  intros H. induction es as [|e es IH]; simpl; [done|].
  by rewrite refused_step.
Qed.

(** X17. A connection is served only when the request carries credentials
    whose name and password equal BASIC_USER and BASIC_PASS, both of which
    must be set.  A refused connection gets exactly one call on its socket,
    close with code 1008, and no listener: whatever arrives afterwards, no
    audio is passed on, the bot is not asked and nothing more is done to the
    socket. *)
Theorem refused_connection_is_only_closed
    (env : Server.Env) (creds : option Server.Credentials)
    (es : list Server.Event) :
  (Server.authorized env creds = true <->
   exists c, creds = Some c /\
             Server.BASIC_USER env = Some (Server.name c) /\
             Server.BASIC_PASS env = Some (Server.pass c)) /\
  (Server.authorized env creds = false ->
   Server.run (Server.onConnection env creds) es =
     {| Server.wired := false; Server.isFirstTurn := true;
        Server.calls := [Server.Close (Some 1008) (Some "Unauthorized")];
        Server.heard := []; Server.asked := []; Server.waiting := [] |}).
Proof.
  split.
  - unfold Server.authorized. destruct creds as [c|].
    + rewrite andb_true_iff, !bool_decide_eq_true. split.
      * intros [Hu Hp]. exists c. by split_and!.
      * intros (c' & [= <-] & Hu & Hp). by split.
    + split; [discriminate | by intros (c & Hc & _)].
  - intros Hno. unfold Server.onConnection. rewrite Hno.
    by apply refused_run.
Qed.

(** The property with the password variable unset. *)
Lemma refused_connection_is_only_closed_witness :
  Server.calls
    (Server.run
       (Server.onConnection
          {| Server.BASIC_USER := Some "genesys"; Server.BASIC_PASS := None |}
          (Some {| Server.name := "genesys"; Server.pass := "" |}))
       [Server.Message [Byte.x10]; Server.Transcript "hello";
        Server.AsrError])
  = [Server.Close (Some 1008) (Some "Unauthorized")].
Proof.
  destruct (refused_connection_is_only_closed
              {| Server.BASIC_USER := Some "genesys";
                 Server.BASIC_PASS := None |}
              (Some {| Server.name := "genesys"; Server.pass := "" |})
              [Server.Message [Byte.x10]; Server.Transcript "hello";
               Server.AsrError]) as [_ H].
  rewrite H; reflexivity.
Defined.

Lemma server_step_wired (c : Server.Connection) (e : Server.Event) :
  Server.wired (Server.step c e) = Server.wired c.
Proof.
  unfold Server.step. destruct (Server.wired c) eqn:Hw; [|done].
  destruct e as [msg| |text|turn [r|]|]; simpl; try done;
    destruct (bool_decide _); simpl; done.
Qed.

(** X18. Until a greeting request has resolved, [isFirstTurn] stays set and
    every transcript asks the bot for its greeting: the text of those
    transcripts goes nowhere, and a transcript that arrives while the first
    greeting request is still under way (or after it was rejected) starts
    another one. *)
Theorem transcripts_before_greeting_ask_greeting
    (c : Server.Connection) (es : list Server.Event)
    (Hwired : Server.wired c = true)
    (Hfirst : Server.isFirstTurn c = true)
    (Hnone : forallb (fun e => negb (Server.greeting_resolves e)) es = true) :
  Server.isFirstTurn (Server.run c es) = true /\
  Server.asked (Server.run c es) =
    (Server.asked c ++ ((fun _ => Server.Greeting) <$> Server.transcripts es))%list.
Proof.
  revert c Hwired Hfirst. induction es as [|e es IH]; intros c Hw Hf.
  - simpl. by rewrite app_nil_r.
  - simpl in Hnone. apply andb_prop in Hnone as [He Hes].
    change (Server.run c (e :: es)) with (Server.run (Server.step c e) es).
    assert (Hstep : Server.isFirstTurn (Server.step c e) = true /\
                    Server.asked (Server.step c e) =
                      (Server.asked c ++
                       ((fun _ => Server.Greeting) <$> Server.transcripts [e]))%list).
    { unfold Server.step. rewrite Hw.
      destruct e as [msg| |text|turn [r|]|]; simpl;
        rewrite ?app_nil_r, ?Hf; try done;
        destruct (bool_decide _); simpl; rewrite ?app_nil_r; try done;
        destruct turn; simpl in *; done. }
    destruct Hstep as [Hf' Ha'].
    destruct (IH Hes (Server.step c e)) as [Hf'' Ha''];
      [by rewrite server_step_wired | exact Hf' |].
    split; [exact Hf''|]. rewrite Ha'', Ha', <- app_assoc. f_equal.
    destruct e; simpl; done.
Qed.

(** The property on a served connection whose first greeting request is
    rejected while a second transcript is already in. *)
Lemma transcripts_before_greeting_ask_greeting_witness :
  Server.asked
    (Server.run
       (Server.onConnection
          {| Server.BASIC_USER := Some "genesys";
             Server.BASIC_PASS := Some "secret" |}
          (Some {| Server.name := "genesys"; Server.pass := "secret" |}))
       [Server.Transcript "hello"; Server.Transcript "anyone?";
        Server.Settled Server.Greeting None; Server.Transcript "hi"])
  = [Server.Greeting; Server.Greeting; Server.Greeting].
Proof.
  apply (transcripts_before_greeting_ask_greeting
           (Server.onConnection
              {| Server.BASIC_USER := Some "genesys";
                 Server.BASIC_PASS := Some "secret" |}
              (Some {| Server.name := "genesys"; Server.pass := "secret" |}))
           [Server.Transcript "hello"; Server.Transcript "anyone?";
            Server.Settled Server.Greeting None; Server.Transcript "hi"]);
    reflexivity.
Defined.

(** X19. Once [isFirstTurn] is cleared it is never set again: from then on
    every transcript is passed to the bot with its text, in the order of
    arrival. *)
Theorem transcripts_after_greeting_ask_answers
    (c : Server.Connection) (es : list Server.Event)
    (Hwired : Server.wired c = true)
    (Hlater : Server.isFirstTurn c = false) :
  Server.isFirstTurn (Server.run c es) = false /\
  Server.asked (Server.run c es) =
    (Server.asked c ++ (Server.Answer <$> Server.transcripts es))%list.
Proof.
  revert c Hwired Hlater. induction es as [|e es IH]; intros c Hw Hf.
  - simpl. by rewrite app_nil_r.
  - change (Server.run c (e :: es)) with (Server.run (Server.step c e) es).
    assert (Hstep : Server.isFirstTurn (Server.step c e) = false /\
                    Server.asked (Server.step c e) =
                      (Server.asked c ++
                       (Server.Answer <$> Server.transcripts [e]))%list).
    { unfold Server.step. rewrite Hw.
      destruct e as [msg| |text|turn [r|]|]; simpl;
        rewrite ?app_nil_r, ?Hf; try done;
        destruct (bool_decide _); simpl; rewrite ?app_nil_r; try done;
        destruct turn; simpl in *; done. }
    destruct Hstep as [Hf' Ha'].
    destruct (IH (Server.step c e)) as [Hf'' Ha''];
      [by rewrite server_step_wired | exact Hf' |].
    split; [exact Hf''|]. rewrite Ha'', Ha', <- app_assoc. f_equal.
    destruct e; simpl; done.
Qed.

(** The property on a served connection after its greeting. *)
Lemma transcripts_after_greeting_ask_answers_witness :
  let greeted :=
    Server.run
      (Server.onConnection
         {| Server.BASIC_USER := Some "genesys";
            Server.BASIC_PASS := Some "secret" |}
         (Some {| Server.name := "genesys"; Server.pass := "secret" |}))
      [Server.Transcript "hello";
       Server.Settled Server.Greeting (Some example_reply)] in
  Server.asked (Server.run greeted
                  [Server.Transcript "my bill"; Server.Message [Byte.x10];
                   Server.Transcript "thanks"])
  = [Server.Greeting; Server.Answer "my bill"; Server.Answer "thanks"].
Proof.
  intros greeted.
  apply (transcripts_after_greeting_ask_answers greeted
           [Server.Transcript "my bill"; Server.Message [Byte.x10];
            Server.Transcript "thanks"]); reflexivity.
Defined.
